(** * polysplit: recursive quadrant splitting of polygons

    A shallow embedding of [split_polygons] and [main] of [polysplit.cpp].

    The program is written against the OGR/GEOS geometry library.  The
    library is not part of the program, so its operations are the fields
    of the class [GeometryEngine]; [split_polygons] is embedded over an
    arbitrary engine, line by line.  The C++ function returns nothing and
    works by side effect on the [pieces] vector and on [std::cerr]; both
    are threaded explicitly as a [state].  The recursion of the source is
    not structural and nothing in the source bounds its depth, so the
    embedding takes a fuel argument: the number of nested activations of
    [split_polygons] that are allowed. *)

From Stdlib Require Import ZArith QArith String Ascii List Lia Lqa.
From stdpp Require Import base option list pretty.
Import ListNotations.

Local Open Scope Z_scope.

(** ** Data of the geometry library, as the program sees it *)

(** The type tag returned by [getGeometryType()].  The program compares
    it with [wkbMultiPolygon] and [wkbPolygon] only.  [wkbOther] stands
    for the remaining values of the enumeration (the 2.5D and curve
    types, [wkbNone], [wkbLinearRing]), by their code. *)
Inductive OGRwkbGeometryType :=
  | wkbUnknown
  | wkbPoint
  | wkbLineString
  | wkbPolygon
  | wkbMultiPoint
  | wkbMultiLineString
  | wkbMultiPolygon
  | wkbGeometryCollection
  | wkbOther (code : Z).

Definition wkb_eqb (a b : OGRwkbGeometryType) : bool :=
  match a, b with
  | wkbUnknown, wkbUnknown
  | wkbPoint, wkbPoint
  | wkbLineString, wkbLineString
  | wkbPolygon, wkbPolygon
  | wkbMultiPoint, wkbMultiPoint
  | wkbMultiLineString, wkbMultiLineString
  | wkbMultiPolygon, wkbMultiPolygon
  | wkbGeometryCollection, wkbGeometryCollection => true
  | wkbOther c, wkbOther d => c =? d
  | _, _ => false
  end.

Section Data.
(** [R] stands for the C++ [double].  The program never computes with
    coordinates, it only copies them around, so [R] stays abstract. *)
Context {R : Type}.

Record OGRPoint := mkPoint { getX : R; getY : R }.

(** A linear ring is the vector of its points. *)
Definition OGRLinearRing := list OGRPoint.

Definition getNumPoints (ring : OGRLinearRing) : Z :=
  Z.of_nat (length ring).

Record OGREnvelope := mkEnvelope { MinX : R; MaxX : R; MinY : R; MaxY : R }.

Definition set_MinX (v : R) (e : OGREnvelope) : OGREnvelope :=
  mkEnvelope v (MaxX e) (MinY e) (MaxY e).
Definition set_MaxX (v : R) (e : OGREnvelope) : OGREnvelope :=
  mkEnvelope (MinX e) v (MinY e) (MaxY e).
Definition set_MinY (v : R) (e : OGREnvelope) : OGREnvelope :=
  mkEnvelope (MinX e) (MaxX e) v (MaxY e).
Definition set_MaxY (v : R) (e : OGREnvelope) : OGREnvelope :=
  mkEnvelope (MinX e) (MaxX e) (MinY e) v.
End Data.

Arguments OGRPoint : clear implicits.
Arguments OGRLinearRing : clear implicits.
Arguments OGREnvelope : clear implicits.

(** ** The geometry engine

    One field per library call made by [split_polygons].  A C++ pointer
    that may be [NULL] is an [option]. *)
Class GeometryEngine (R Geometry : Type) := {
  (** the [double] 0.0: the distance passed to [Buffer] and the value
      [setNumPoints] fills new points with *)
  zero : R;
  (** [geometry->IsEmpty()] *)
  IsEmpty : Geometry -> bool;
  (** [geometry->getGeometryType()] *)
  getGeometryType : Geometry -> OGRwkbGeometryType;
  (** [multi->getNumGeometries()], a C++ [int] *)
  getNumGeometries : Geometry -> Z;
  (** [multi->getGeometryRef(i)] *)
  getGeometryRef : Geometry -> Z -> option Geometry;
  (** [polygon->getExteriorRing()] *)
  getExteriorRing : Geometry -> OGRLinearRing R;
  (** [polygon->clone()] *)
  clone : Geometry -> Geometry;
  (** [polygon->IsValid()] and [polygon->IsSimple()] *)
  IsValid : Geometry -> bool;
  IsSimple : Geometry -> bool;
  (** [polygon->Buffer(dist)]; [NULL] when the library fails *)
  Buffer : Geometry -> R -> option Geometry;
  (** [polygon->Centroid(&centroid)], the point written to [centroid] *)
  Centroid : Geometry -> OGRPoint R;
  (** [polygon->getEnvelope(&envelope)] *)
  getEnvelope : Geometry -> OGREnvelope R;
  (** the default-constructed [OGRPolygon mask;] *)
  OGRPolygon_new : Geometry;
  (** [mask.addRing(&ring)] *)
  addRing : Geometry -> OGRLinearRing R -> Geometry;
  (** [mask.Intersection(polygon)]; [NULL] when the library fails *)
  Intersection : Geometry -> Geometry -> option Geometry
}.

(** ** State and results *)

Section Splitter.
Context {R Geometry : Type} {GE : GeometryEngine R Geometry}.

(** [pieces] is the [OGRPolyList] the caller passes by pointer,
    [cerr] the lines written to [std::cerr], oldest first. *)
Record state := mkState { pieces : list Geometry; cerr : list string }.

(** How an activation ended.  [Returned]: the function returned.
    [OutOfFuel]: the allowed nesting depth was used up.  [NullDeref]:
    the program dereferenced a [NULL] pointer (undefined behaviour in
    C++).  The state reached so far is kept in every case. *)
Inductive status := Returned | OutOfFuel | NullDeref.

Definition result : Type := status * state.

Definition ret (st : state) : result := (Returned, st).

Definition bind (r : result) (k : state -> result) : result :=
  match r with
  | (Returned, st) => k st
  | other => other
  end.

(** [pieces->push_back(p)] *)
Definition push_back (p : Geometry) (st : state) : state :=
  mkState (pieces st ++ [p]) (cerr st).

(** [std::cerr << msg] *)
Definition write_cerr (msg : string) (st : state) : state :=
  mkState (pieces st) (cerr st ++ [msg]).

Definition newline : string := String (ascii_of_nat 10) EmptyString.

Definition null_warning : string :=
  ("WARNING: NULL geometry passed to split_polygons!" ++ newline)%string.

(** [for (int i = from; i < from + count; i++) body(i)] *)
Fixpoint for_loop (body : Z -> state -> result) (i : Z) (count : nat)
    (st : state) : result :=
  match count with
  | O => ret st
  | S count' => bind (body i st) (for_loop body (i + 1) count')
  end.

(** [ring.setNumPoints(n)]: truncate, or extend with zeroed points. *)
Definition setNumPoints (n : nat) (ring : OGRLinearRing R) : OGRLinearRing R :=
  take n ring ++ replicate (n - length ring)%nat (mkPoint zero zero).

(** [ring.setPoint(i, x, y)]: a ring that is too short is extended
    first. *)
Definition setPoint (i : nat) (x y : R) (ring : OGRLinearRing R) : OGRLinearRing R :=
  let ring := if (i <? length ring)%nat then ring else setNumPoints (S i) ring in
  <[i := mkPoint x y]> ring.

(** Lines 86 and 89-94: the copy of the envelope and the [switch]. *)
Definition quadrant_bbox (envelope : OGREnvelope R) (cornerX cornerY : R)
    (quadrant : Z) : OGREnvelope R :=
  let bbox := envelope in
  match quadrant with
  | 0 => set_MaxY cornerY (set_MaxX cornerX bbox)
  | 1 => set_MinY cornerY (set_MaxX cornerX bbox)
  | 2 => set_MaxY cornerY (set_MinX cornerX bbox)
  | 3 => set_MinY cornerY (set_MinX cornerX bbox)
  | _ => bbox
  end.

(** Lines 87 and 95-100: the ring of the mask. *)
Definition mask_ring (bbox : OGREnvelope R) : OGRLinearRing R :=
  let ring := [] in
  let ring := setNumPoints 5 ring in
  let ring := setPoint 0 (MinX bbox) (MinY bbox) ring in
  let ring := setPoint 1 (MinX bbox) (MaxY bbox) ring in
  let ring := setPoint 2 (MaxX bbox) (MaxY bbox) ring in
  let ring := setPoint 3 (MaxX bbox) (MinY bbox) ring in
  let ring := setPoint 4 (MinX bbox) (MinY bbox) ring in
  ring.

(** Lines 88 and 101: the mask polygon. *)
Definition make_mask (bbox : OGREnvelope R) : Geometry :=
  let mask := OGRPolygon_new in
  addRing mask (mask_ring bbox).

(** Lines 71-75.  [None] is the [NULL] that [Buffer] may return. *)
Definition tidy (polygon : Geometry) : option Geometry :=
  if negb (IsValid polygon) || negb (IsSimple polygon)
  then Buffer polygon zero
  else Some polygon.

(** [split_polygons], lines 31-108.  [getNumGeometries] is read once
    (the source reads it at every iteration, from an object that does
    not change).  The two [delete]s (lines 104 and 107) free objects
    that nothing refers to any more and have no counterpart here. *)
Fixpoint split_polygons (fuel : nat) (st : state) (geometry : option Geometry)
    (max_vertices : Z) : result :=
  match fuel with
  | O => (OutOfFuel, st)
  | S fuel' =>
    match geometry with
    | None => ret (write_cerr null_warning st)
    | Some geometry =>
      if IsEmpty geometry then ret st
      else if wkb_eqb (getGeometryType geometry) wkbMultiPolygon then
        let multi := geometry in
        for_loop
          (fun i st' =>
             split_polygons fuel' st' (getGeometryRef multi i) max_vertices)
          0 (Z.to_nat (getNumGeometries multi)) st
      else if negb (wkb_eqb (getGeometryType geometry) wkbPolygon) then ret st
      else
        let polygon := geometry in
        if getNumPoints (getExteriorRing polygon) <=? max_vertices then
          ret (push_back (clone polygon) st)
        else
          match tidy polygon with
          | None => (NullDeref, st)
          | Some polygon =>
            let centroid := Centroid polygon in
            let cornerX := getX centroid in
            let cornerY := getY centroid in
            let envelope := getEnvelope polygon in
            for_loop
              (fun quadrant st' =>
                 let bbox := quadrant_bbox envelope cornerX cornerY quadrant in
                 let mask := make_mask bbox in
                 let piece := Intersection mask polygon in
                 split_polygons fuel' st' piece max_vertices)
              0 4 st
          end
    end
  end.

(** *** Derived notions used in the statements *)

(** The geometry handed to the recursive call for one [quadrant]. *)
Definition quadrant_piece (polygon : Geometry) (quadrant : Z) : option Geometry :=
  Intersection
    (make_mask
       (quadrant_bbox (getEnvelope polygon)
          (getX (Centroid polygon)) (getY (Centroid polygon)) quadrant))
    polygon.

(** The closed ring of the rectangle [x0..x1] by [y0..y1], in the
    order in which lines 96-100 write it. *)
Definition rectangle_ring (x0 y0 x1 y1 : R) : OGRLinearRing R :=
  [mkPoint x0 y0; mkPoint x0 y1; mkPoint x1 y1; mkPoint x1 y0; mkPoint x0 y0].

Definition rectangle (x0 y0 x1 y1 : R) : Geometry :=
  addRing OGRPolygon_new (rectangle_ring x0 y0 x1 y1).

(** The exterior ring has more points than the threshold allows. *)
Definition oversized (polygon : Geometry) (max_vertices : Z) : Prop :=
  max_vertices < getNumPoints (getExteriorRing polygon).

Definition empty_state : state := mkState [] [].

(** [extend st d]: the state [st] followed by what [d] holds. *)
Definition extend (st d : state) : state :=
  mkState (pieces st ++ pieces d) (cerr st ++ cerr d).

(** Running a list of calls one after the other, each on the state the
    previous one left. *)
Definition run_all (fuel : nat) (max_vertices : Z)
    (gs : list (option Geometry)) (st : state) : result :=
  fold_left
    (fun r g => bind r (fun st' => split_polygons fuel st' g max_vertices))
    gs (ret st).

(** The members of a multipolygon, in index order. *)
Definition members (multi : Geometry) : list (option Geometry) :=
  map (fun i => getGeometryRef multi (Z.of_nat i))
      (seq 0 (Z.to_nat (getNumGeometries multi))).

(** The four masks as the specification lists them, each intersected
    with [polygon]: [minX..centroidX] by [minY..centroidY],
    [minX..centroidX] by [centroidY..maxY], [centroidX..maxX] by
    [minY..centroidY] and [centroidX..maxX] by [centroidY..maxY]. *)
Definition quadrants (polygon : Geometry) : list (option Geometry) :=
  let e := getEnvelope polygon in
  let c := Centroid polygon in
  [ Intersection (rectangle (MinX e) (MinY e) (getX c) (getY c)) polygon;
    Intersection (rectangle (MinX e) (getY c) (getX c) (MaxY e)) polygon;
    Intersection (rectangle (getX c) (MinY e) (MaxX e) (getY c)) polygon;
    Intersection (rectangle (getX c) (getY c) (MaxX e) (MaxY e)) polygon ].

(** What a list of runs added, one after the other. *)
Definition join (ds : list state) : state :=
  mkState (concat (map pieces ds)) (concat (map cerr ds)).

(** [splits geometry T d]: called on an empty accumulator and a silent
    [cerr], [split_polygons] returns, having pushed the pieces of [d]
    and written the lines of [d]. *)
Definition splits (geometry : option Geometry) (max_vertices : Z)
    (d : state) : Prop :=
  exists fuel,
    split_polygons fuel empty_state geometry max_vertices = (Returned, d).


(** [f] leaves the state it is given in place and adds to it what it
    adds to the empty state. *)
Definition framed (f : state -> result) : Prop :=
  forall st, f st = (fst (f empty_state), extend st (snd (f empty_state))).
End Splitter.

Arguments state : clear implicits.
Arguments result : clear implicits.

(** ** The command line program

    [main], lines 177-300, with [usage], [create_destination] and
    [write_feature].  What the C library and the OGR library answer is
    given from outside: [getopt] by the list of the options it returns,
    [atoi] and the printing of an [int] as functions, the data sources
    as an [OGRWorld]. *)

Section Main.
Context {R Geometry : Type} {GE : GeometryEngine R Geometry}.

(** [atoi] of the C library and [operator<<] on an [int]. *)
Variable atoi : string -> Z.
Variable show_int : Z -> string.

Definition MAXVERTICES : Z := 250.
Definition OUTPUTDRIVER : string := "ESRI Shapefile".
Definition IDFIELD : string := "id".

Definition tab : string := String (ascii_of_nat 9) EmptyString.
Definition carriage_return : string := String (ascii_of_nat 13) EmptyString.

(** The text that [usage] writes, lines 167-173. *)
Definition usage_text : string :=
  (newline ++ "Usage: polysplit [opts] <input> <output>" ++ newline ++ newline
   ++ tab ++ "-i" ++ tab ++ "input layer name" ++ newline
   ++ tab ++ "-o" ++ tab ++ "output layer name" ++ newline
   ++ tab ++ "-f" ++ tab ++ "OGR output driver name" ++ newline
   ++ tab ++ "-n" ++ tab ++ "ID field name (must be integer type)" ++ newline
   ++ tab ++ "-m" ++ tab ++ "Max vertices per output polygon" ++ newline
   ++ tab ++ "-v" ++ tab ++ "Verbose mode" ++ newline ++ newline)%string.

(** The local variables that the option loop sets, with the global
    [debug]. *)
Record options := mkOptions {
  src_layer_name : option string;
  dest_layer_name : option string;
  driver_name : string;
  id_field_name : option string;
  max_vertices : Z;
  debug : bool
}.

(** Lines 178-183 and 29. *)
Definition initial_options : options :=
  mkOptions None None OUTPUTDRIVER None MAXVERTICES false.

(** The [switch] of lines 186-194 for one answer [(opt, optarg)] of
    [getopt].  [None]: the [default] branch, which calls [usage]. *)
Definition set_option (o : options) (answer : ascii * string) : option options :=
  let (opt, optarg) := answer in
  if Ascii.eqb opt "i" then
    Some (mkOptions (Some optarg) (dest_layer_name o) (driver_name o)
            (id_field_name o) (max_vertices o) (debug o))
  else if Ascii.eqb opt "o" then
    Some (mkOptions (src_layer_name o) (Some optarg) (driver_name o)
            (id_field_name o) (max_vertices o) (debug o))
  else if Ascii.eqb opt "f" then
    Some (mkOptions (src_layer_name o) (dest_layer_name o) optarg
            (id_field_name o) (max_vertices o) (debug o))
  else if Ascii.eqb opt "n" then
    Some (mkOptions (src_layer_name o) (dest_layer_name o) (driver_name o)
            (Some optarg) (max_vertices o) (debug o))
  else if Ascii.eqb opt "m" then
    Some (mkOptions (src_layer_name o) (dest_layer_name o) (driver_name o)
            (id_field_name o) (atoi optarg) (debug o))
  else if Ascii.eqb opt "v" then
    Some (mkOptions (src_layer_name o) (dest_layer_name o) (driver_name o)
            (id_field_name o) (max_vertices o) true)
  else None.

(** The [while] loop of lines 185-195 over the answers of [getopt]. *)
Fixpoint parse_options (o : options) (answers : list (ascii * string))
    : option options :=
  match answers with
  | [] => Some o
  | answer :: rest =>
      match set_option o answer with
      | Some o' => parse_options o' rest
      | None => None
      end
  end.

(** *** The data sources *)

Record OGRFeature := {
  GetFID : Z;
  GetFieldAsInteger : Z -> Z;
  GetGeometryRef : option Geometry
}.

Record OGRLayer := {
  (** [GetLayerDefn()->GetFieldIndex(name)], negative when absent *)
  GetFieldIndex : string -> Z;
  (** [GetFieldDefn(i)->GetType() == OFTInteger] *)
  field_is_OFTInteger : Z -> bool;
  GetFeatureCount : Z;
  (** the features that [GetNextFeature] returns, in order *)
  layer_features : list OGRFeature
}.

Record OGRDataSource := {
  GetLayerByName : string -> option OGRLayer;
  GetLayer0 : option OGRLayer
}.

Record OGRWorld := {
  (** [GDALOpen] or [OGRSFDriverRegistrar::Open] *)
  open_source : string -> option OGRDataSource;
  (** does [GetDriverByName] find the driver *)
  driver_found : string -> bool;
  (** does the driver create the file *)
  file_created : string -> string -> bool;
  (** does [CreateLayer] return a layer *)
  layer_created : option string -> bool;
  (** does [CreateField] succeed *)
  field_created : string -> bool;
  (** does line 252 find the output layer *)
  dest_layer_found : option string -> bool;
  (** does the [n]-th [CreateFeature] on the output layer succeed *)
  feature_created : nat -> bool
}.

(** *** The process *)

(** [p_cerr]: what was written to [std::cerr]; [p_written]: the
    features created in the output layer, with their id;
    [p_calls]: the arguments of the calls of [split_polygons] made so
    far, kept for the statements only. *)
Record process := mkProcess {
  p_cerr : list string;
  p_written : list (Z * Geometry);
  p_calls : list (option Geometry * Z)
}.

(** [Exited n]: [exit(n)], or [main] returned [n]. *)
Inductive ending := Exited (code : Z) | FuelSpent | Crashed.

Definition say (msg : string) (p : process) : process :=
  mkProcess (p_cerr p ++ [msg]) (p_written p) (p_calls p).

(** [usage()], lines 166-175. *)
Definition usage (p : process) : ending * process :=
  (Exited 1, say usage_text p).

(** [create_destination], lines 110-151: whether a data source is
    returned, and the process after the messages. *)
Definition create_destination (w : OGRWorld) (drivername filename : string)
    (layername id_field_name : option string) (p : process) : bool * process :=
  if negb (driver_found w drivername) then
    (false, say (drivername ++ " driver not available." ++ newline)%string p)
  else if negb (file_created w drivername filename) then
    (false, say ("Creation of output file " ++ filename ++ " failed."
                 ++ newline)%string p)
  else if negb (layer_created w layername) then
    (false, say ("Layer creation failed." ++ newline)%string p)
  else
    let id_field_name :=
      match id_field_name with None => IDFIELD | Some n => n end in
    if negb (field_created w id_field_name) then
      (false, say ("Creating " ++ id_field_name ++ " field failed."
                   ++ newline)%string p)
    else (true, p).

(** The value of a 32-bit [int]: the conversion of a [long long] to
    [int] or [feature_id_t], and the result of [int] arithmetic.  An
    overflow of the counters, which C++ leaves undefined, is taken to
    wrap around, as two's complement hardware does. *)
Definition to_int (z : Z) : Z := (z + 2 ^ 31) mod 2 ^ 32 - 2 ^ 31.

(** [write_feature], lines 153-164.  [dest_layer] tells whether the
    layer pointer is not [NULL]; [None] means that the call returned. *)
Definition write_feature (w : OGRWorld) (dest_layer : bool) (geom : Geometry)
    (id : Z) (p : process) : option ending * process :=
  if negb dest_layer then (Some Crashed, p)
  else if negb (feature_created w (length (p_written p))) then
    (Some (Exited 1),
     say ("Failed to create feature in output." ++ newline)%string p)
  else (None, mkProcess (p_cerr p) (p_written p ++ [(id, geom)]) (p_calls p)).

(** Lines 275-280: one feature written per piece; the second component
    is the [int] [features_written]. *)
Fixpoint write_pieces (w : OGRWorld) (dest_layer : bool) (id : Z)
    (pcs : list Geometry) (features_written : Z) (p : process)
    : option ending * (Z * process) :=
  match pcs with
  | [] => (None, (features_written, p))
  | piece :: rest =>
      match write_feature w dest_layer piece id p with
      | (None, p) =>
          write_pieces w dest_layer id rest (to_int (features_written + 1)) p
      | (stop, p) => (stop, (features_written, p))
      end
  end.

(** The loop of lines 263-287 over the features still to be read,
    followed by lines 289-300.  [total], [features_read] and
    [features_written] are the [int]s of lines 256-257. *)
Fixpoint read_features (fuel : nat) (w : OGRWorld) (o : options)
    (id_field total : Z) (dest_layer : bool) (todo : list OGRFeature)
    (features_read features_written : Z) (p : process) : ending * process :=
  match todo with
  | [] =>
      (Exited 0,
       say (show_int features_read ++ " features read, "
            ++ show_int features_written ++ " written." ++ newline)%string p)
  | feature :: rest =>
      let id := to_int (if 0 <=? id_field
                        then GetFieldAsInteger feature id_field
                        else GetFID feature) in
      let geometry := GetGeometryRef feature in
      let p := mkProcess (p_cerr p) (p_written p)
                 (p_calls p ++ [(geometry, max_vertices o)]) in
      match split_polygons fuel (mkState [] (p_cerr p)) geometry
              (max_vertices o) with
      | (Returned, st) =>
          let p := mkProcess (cerr st) (p_written p) (p_calls p) in
          match write_pieces w dest_layer id (pieces st) features_written p with
          | (None, (features_written, p)) =>
              let features_read := to_int (features_read + 1) in
              let p := if debug o
                       then say (show_int features_read ++ " / "
                                 ++ show_int total ++ carriage_return)%string p
                       else p in
              read_features fuel w o id_field total dest_layer rest
                features_read features_written p
          | (Some stop, (_, p)) => (stop, p)
          end
      | (OutOfFuel, st) =>
          (FuelSpent, mkProcess (cerr st) (p_written p) (p_calls p))
      | (NullDeref, st) =>
          (Crashed, mkProcess (cerr st) (p_written p) (p_calls p))
      end
  end.

(** Lines 203-300: [main] after the command line has been accepted. *)
Definition run (fuel : nat) (w : OGRWorld) (o : options)
    (source_name dest_name : string) (p : process) : ending * process :=
  match open_source w source_name with
  | None =>
      (Exited 1, say ("Opening " ++ source_name ++ " failed." ++ newline)%string p)
  | Some source =>
      let srcLayer :=
        match src_layer_name o with
        | Some name => GetLayerByName source name
        | None => GetLayer0 source
        end in
      match srcLayer with
      | None =>
          (Exited 1, say ("Can't find input layer." ++ newline)%string p)
      | Some srcLayer =>
          let check_field :=
            match id_field_name o with
            | None => inr (-1)
            | Some name =>
                let id_field := GetFieldIndex srcLayer name in
                if id_field <? 0 then
                  inl ("Can't find ID field " ++ name ++ "." ++ newline)%string
                else if negb (field_is_OFTInteger srcLayer id_field) then
                  inl ("ID field " ++ name ++ " isn't integer type!"
                       ++ newline)%string
                else inr id_field
            end in
          match check_field with
          | inl msg => (Exited 1, say msg p)
          | inr id_field =>
              match create_destination w (driver_name o) dest_name
                      (dest_layer_name o) (id_field_name o) p with
              | (false, p) => (Exited 1, p)
              | (true, p) =>
                  read_features fuel w o id_field
                    (to_int (GetFeatureCount srcLayer))
                    (dest_layer_found w (dest_layer_name o))
                    (layer_features srcLayer) 0 0 p
              end
          end
      end
  end.

(** [main]: [answers] are the answers of [getopt] before it returns
    -1, [args] is [argv] after line 197, of length [argc]. *)
Definition main (fuel : nat) (answers : list (ascii * string))
    (args : list string) (w : OGRWorld) : ending * process :=
  let p := mkProcess [] [] [] in
  match parse_options initial_options answers with
  | None => usage p
  | Some o =>
      let argc := Z.of_nat (length args) in
      if (argc <? 2) || (max_vertices o <=? 5) then usage p
      else
        let source_name := nth 0 args EmptyString in
        let dest_name := nth 1 args EmptyString in
        run fuel w o source_name dest_name p
  end.
End Main.

Arguments options : clear implicits.
Arguments process : clear implicits.
Arguments OGRWorld : clear implicits.

(** ** An exact engine for rectangles and L-shapes

    A geometry engine for the polygons whose sides are parallel to the
    axes and which are a rectangle, or a rectangle with a rectangular
    notch cut out of its upper right corner.  It computes in the
    rationals, not in [double]: every operation that [split_polygons]
    calls is exact (of an intersection the part that has an interior is
    returned), and the family is closed under intersection with a
    rectangular mask.  The coordinates and the centroids of the inputs
    of the examples are dyadic numbers of a few bits, which a [double]
    holds exactly.  The statements about [split_polygons] are
    instantiated on it. *)

Module Rectilinear.
Local Open Scope Q_scope.

#[warnings="-register-all"] Inductive shape :=
  (** the rectangle [x0..x1] by [y0..y1] *)
  | Rect (x0 y0 x1 y1 : Q)
  (** the rectangle [x0..x1] by [y0..y1] without [px..x1] by [py..y1] *)
  | LShape (x0 y0 x1 y1 px py : Q)
  (** a polygon without rings *)
  | NoShape
  | Multi (parts : list shape)
  | Point (x y : Q).

Definition Qlt_bool (a b : Q) : bool := negb (Qle_bool b a).

Definition qmax (a b : Q) : Q := if Qle_bool a b then b else a.
Definition qmin (a b : Q) : Q := if Qle_bool a b then a else b.

Definition point_eqb (p q : OGRPoint Q) : bool :=
  Qeq_bool (getX p) (getX q) && Qeq_bool (getY p) (getY q).

Fixpoint is_empty (g : shape) : bool :=
  match g with
  | NoShape => true
  | Multi parts => forallb is_empty parts
  | _ => false
  end.

Definition geometry_type (g : shape) : OGRwkbGeometryType :=
  match g with
  | Rect _ _ _ _ | LShape _ _ _ _ _ _ | NoShape => wkbPolygon
  | Multi _ => wkbMultiPolygon
  | Point _ _ => wkbPoint
  end.

Definition num_geometries (g : shape) : Z :=
  match g with
  | Multi parts => Z.of_nat (length parts)
  | _ => 0%Z
  end.

Definition geometry_ref (g : shape) (i : Z) : option shape :=
  match g with
  | Multi parts => if (0 <=? i)%Z then parts !! Z.to_nat i else None
  | _ => None
  end.

(** The rings start at the lower left corner and go clockwise, as the
    mask ring of [split_polygons] does. *)
Definition exterior_ring (g : shape) : OGRLinearRing Q :=
  match g with
  | Rect x0 y0 x1 y1 =>
      [mkPoint x0 y0; mkPoint x0 y1; mkPoint x1 y1; mkPoint x1 y0;
       mkPoint x0 y0]
  | LShape x0 y0 x1 y1 px py =>
      [mkPoint x0 y0; mkPoint x0 y1; mkPoint px y1; mkPoint px py;
       mkPoint x1 py; mkPoint x1 y0; mkPoint x0 y0]
  | _ => []
  end.

(** A rectangle is valid when it has an interior, an L-shape when the
    corner of the notch lies strictly inside the outer rectangle. *)
Definition is_valid (g : shape) : bool :=
  match g with
  | Rect x0 y0 x1 y1 => Qlt_bool x0 x1 && Qlt_bool y0 y1
  | LShape x0 y0 x1 y1 px py =>
      Qlt_bool x0 px && Qlt_bool px x1 && Qlt_bool y0 py && Qlt_bool py y1
  | _ => true
  end.

(** [Buffer(0)]: a valid shape is returned as it is; an L-shape whose
    notch has no area is the outer rectangle; what has no interior
    becomes the empty polygon. *)
Definition buffer (g : shape) (dist : Q) : option shape :=
  match g with
  | Rect _ _ _ _ => Some (if is_valid g then g else NoShape)
  | LShape x0 y0 x1 y1 px py =>
      Some (if is_valid g then g
            else if Qlt_bool x0 px && Qle_bool px x1 &&
                    Qlt_bool y0 py && Qle_bool py y1
                 then Rect x0 y0 x1 y1
                 else NoShape)
  | _ => Some g
  end.

(** The centre of mass.  An L-shape is the lower bar [x0..x1] by
    [y0..py], of area [a1], under the block [x0..px] by [py..y1], of
    area [a2]. *)
Definition centroid (g : shape) : OGRPoint Q :=
  match g with
  | Rect x0 y0 x1 y1 =>
      mkPoint (Qred ((x0 + x1) / 2)) (Qred ((y0 + y1) / 2))
  | LShape x0 y0 x1 y1 px py =>
      let a1 := (x1 - x0) * (py - y0) in
      let a2 := (px - x0) * (y1 - py) in
      mkPoint
        (Qred ((a1 * ((x0 + x1) / 2) + a2 * ((x0 + px) / 2)) / (a1 + a2)))
        (Qred ((a1 * ((y0 + py) / 2) + a2 * ((py + y1) / 2)) / (a1 + a2)))
  | _ => mkPoint 0 0
  end.

Definition envelope (g : shape) : OGREnvelope Q :=
  match g with
  | Rect x0 y0 x1 y1 | LShape x0 y0 x1 y1 _ _ => mkEnvelope x0 x1 y0 y1
  | _ => mkEnvelope 0 0 0 0
  end.

(** Only the ring of a rectangle can be added, and only to a polygon
    that has no ring yet. *)
Definition add_ring (g : shape) (ring : OGRLinearRing Q) : shape :=
  match g, ring with
  | NoShape, [a; b; c; d; e] =>
      if point_eqb b (mkPoint (getX a) (getY c)) &&
         point_eqb d (mkPoint (getX c) (getY a)) &&
         point_eqb e a
      then Rect (getX a) (getY a) (getX c) (getY c)
      else g
  | _, _ => g
  end.

(** The part of the box [u0..u1] by [v0..v1] outside the notch whose
    corner is [(px, py)]. *)
Definition cut_notch (u0 v0 u1 v1 px py : Q) : shape :=
  if Qle_bool u1 px || Qle_bool v1 py then Rect u0 v0 u1 v1
  else if Qle_bool px u0 && Qle_bool py v0 then NoShape
  else if Qle_bool px u0 then Rect u0 v0 u1 py
  else if Qle_bool py v0 then Rect u0 v0 px v1
  else LShape u0 v0 u1 v1 px py.

(** Intersection of a rectangular mask with a polygon.  What has no
    interior is returned as the empty polygon.  Other operands are not
    supported: the call fails. *)
Definition intersection (mask g : shape) : option shape :=
  match mask with
  | Rect a0 b0 a1 b1 =>
      match g with
      | Rect x0 y0 x1 y1 | LShape x0 y0 x1 y1 _ _ =>
          let u0 := qmax a0 x0 in
          let u1 := qmin a1 x1 in
          let v0 := qmax b0 y0 in
          let v1 := qmin b1 y1 in
          if Qlt_bool u0 u1 && Qlt_bool v0 v1 then
            match g with
            | LShape _ _ _ _ px py => Some (cut_notch u0 v0 u1 v1 px py)
            | _ => Some (Rect u0 v0 u1 v1)
            end
          else Some NoShape
      | NoShape => Some NoShape
      | _ => None
      end
  | _ => None
  end.

#[export] Instance engine : GeometryEngine Q shape := {
  zero := 0;
  IsEmpty := is_empty;
  getGeometryType := geometry_type;
  getNumGeometries := num_geometries;
  getGeometryRef := geometry_ref;
  getExteriorRing := exterior_ring;
  clone := fun g => g;
  IsValid := is_valid;
  IsSimple := is_valid;
  Buffer := buffer;
  Centroid := centroid;
  getEnvelope := envelope;
  OGRPolygon_new := NoShape;
  addRing := add_ring;
  Intersection := intersection
}.

(** The area, for reference. *)
Fixpoint area (g : shape) : Q :=
  match g with
  | Rect x0 y0 x1 y1 => (x1 - x0) * (y1 - y0)
  | LShape x0 y0 x1 y1 px py =>
      (x1 - x0) * (y1 - y0) - (x1 - px) * (y1 - py)
  | Multi parts => fold_right (fun part acc => area part + acc) 0 parts
  | _ => 0
  end.

(** *** The inputs of the examples *)

(** The L-shape [0..9] by [0..4] without [3..9] by [1..4]; its centre
    of mass is [(3, 3/2)], on the vertical side of the notch. *)
Definition long_L : shape := LShape 0 0 9 4 3 1.

(** The square [0..2] by [0..2] without [1..2] by [1..2]. *)
Definition square_L : shape := LShape 0 0 2 2 1 1.

(** The square [0..2] by [0..2] written as an L-shape whose notch has
    no width: its ring visits [(2, 1)] twice. *)
Definition flat_L : shape := LShape 0 0 2 2 2 1.

Definition unit_square : shape := Rect 0 0 1 1.

(** The L-shapes that are symmetric about the diagonal through the
    corner of the notch. *)
Definition symmetric_L (g : shape) : Prop :=
  exists x0 y0 x1 y1 px py,
    g = LShape x0 y0 x1 y1 px py /\
    x0 < px /\ px < x1 /\ y0 < py /\ py < y1 /\
    x1 - x0 == y1 - y0 /\ px - x0 == py - y0.


(** *** A command line session *)

Local Open Scope Z_scope.

Definition digit_value (c : ascii) : option Z :=
  let n := Z.of_nat (nat_of_ascii c) in
  if (48 <=? n) && (n <=? 57) then Some (n - 48) else None.

Fixpoint leading_digits (s : string) (acc : Z) : Z :=
  match s with
  | String c rest =>
      match digit_value c with
      | Some d => leading_digits rest (10 * acc + d)
      | None => acc
      end
  | EmptyString => acc
  end.

Definition is_space (c : ascii) : bool :=
  let n := Z.of_nat (nat_of_ascii c) in
  (n =? 32) || ((9 <=? n) && (n <=? 13)).

Fixpoint skip_spaces (s : string) : string :=
  match s with
  | String c rest => if is_space c then skip_spaces rest else s
  | EmptyString => s
  end.

(** [atoi] on a text whose value fits an [int], the only ones on which
    the C library defines it: leading white space, an optional sign,
    then the leading decimal digits. *)
Definition atoi_decimal (s : string) : Z :=
  match skip_spaces s with
  | String "-" rest => - leading_digits rest 0
  | String "+" rest => leading_digits rest 0
  | text => leading_digits text 0
  end.

(** A data source of one layer with two features, [long_L] with
    feature id 7 and a feature without geometry with id 8; every call
    of the library succeeds. *)
Definition two_features : OGRLayer (Geometry := shape) := {|
  GetFieldIndex := fun _ => -1;
  field_is_OFTInteger := fun _ => false;
  GetFeatureCount := 2;
  layer_features :=
    [ {| GetFID := 7; GetFieldAsInteger := fun _ => 0;
         GetGeometryRef := Some long_L |};
      {| GetFID := 8; GetFieldAsInteger := fun _ => 0;
         GetGeometryRef := None |} ]
|}.

Definition small_world : OGRWorld shape := {|
  open_source := fun _ =>
    Some {| GetLayerByName := fun _ => Some two_features;
            GetLayer0 := Some two_features |};
  driver_found := fun _ => true;
  file_created := fun _ _ => true;
  layer_created := fun _ => true;
  field_created := fun _ => true;
  dest_layer_found := fun _ => true;
  feature_created := fun _ => true
|}.

Definition session (m : string) : ending * process shape :=
  main atoi_decimal pretty 3 [("m"%char, m)] ["in.shp"; "out.shp"]%string
    small_world.
End Rectilinear.

(** ** An engine of fixed precision

    The same polygons on a grid: every coordinate is a whole number of
    steps, and the centre of mass, which need not lie on the grid, is
    rounded to the nearest point of it, as an engine that computes in
    [double] rounds it to a representable number.  The other
    operations are exact, as in [Rectilinear]. *)

Module Grid.
Local Open Scope Z_scope.

#[warnings="-register-all"] Inductive shape :=
  (** the rectangle [x0..x1] by [y0..y1] *)
  | Rect (x0 y0 x1 y1 : Z)
  (** the rectangle [x0..x1] by [y0..y1] without [px..x1] by [py..y1] *)
  | LShape (x0 y0 x1 y1 px py : Z)
  (** a polygon without rings *)
  | NoShape
  | Multi (parts : list shape)
  | Point (x y : Z).

Definition point_eqb (p q : OGRPoint Z) : bool :=
  (getX p =? getX q) && (getY p =? getY q).

Fixpoint is_empty (g : shape) : bool :=
  match g with
  | NoShape => true
  | Multi parts => forallb is_empty parts
  | _ => false
  end.

Definition geometry_type (g : shape) : OGRwkbGeometryType :=
  match g with
  | Rect _ _ _ _ | LShape _ _ _ _ _ _ | NoShape => wkbPolygon
  | Multi _ => wkbMultiPolygon
  | Point _ _ => wkbPoint
  end.

Definition num_geometries (g : shape) : Z :=
  match g with
  | Multi parts => Z.of_nat (length parts)
  | _ => 0
  end.

Definition geometry_ref (g : shape) (i : Z) : option shape :=
  match g with
  | Multi parts => if 0 <=? i then parts !! Z.to_nat i else None
  | _ => None
  end.

Definition exterior_ring (g : shape) : OGRLinearRing Z :=
  match g with
  | Rect x0 y0 x1 y1 =>
      [mkPoint x0 y0; mkPoint x0 y1; mkPoint x1 y1; mkPoint x1 y0;
       mkPoint x0 y0]
  | LShape x0 y0 x1 y1 px py =>
      [mkPoint x0 y0; mkPoint x0 y1; mkPoint px y1; mkPoint px py;
       mkPoint x1 py; mkPoint x1 y0; mkPoint x0 y0]
  | _ => []
  end.

Definition is_valid (g : shape) : bool :=
  match g with
  | Rect x0 y0 x1 y1 => (x0 <? x1) && (y0 <? y1)
  | LShape x0 y0 x1 y1 px py =>
      (x0 <? px) && (px <? x1) && (y0 <? py) && (py <? y1)
  | _ => true
  end.

Definition buffer (g : shape) (dist : Z) : option shape :=
  match g with
  | Rect _ _ _ _ => Some (if is_valid g then g else NoShape)
  | LShape x0 y0 x1 y1 px py =>
      Some (if is_valid g then g
            else if (x0 <? px) && (px <=? x1) && (y0 <? py) && (py <=? y1)
                 then Rect x0 y0 x1 y1
                 else NoShape)
  | _ => Some g
  end.

(** The quotient [n / d] rounded to the nearest whole number, a half
    upwards. *)
Definition nearest (n d : Z) : Z := (2 * n + d) / (2 * d).

(** The centre of mass, rounded to the grid.  An L-shape is the lower
    bar [x0..x1] by [y0..py], of area [a1], under the block [x0..px]
    by [py..y1], of area [a2]. *)
Definition centroid (g : shape) : OGRPoint Z :=
  match g with
  | Rect x0 y0 x1 y1 => mkPoint (nearest (x0 + x1) 2) (nearest (y0 + y1) 2)
  | LShape x0 y0 x1 y1 px py =>
      let a1 := (x1 - x0) * (py - y0) in
      let a2 := (px - x0) * (y1 - py) in
      mkPoint
        (nearest (a1 * (x0 + x1) + a2 * (x0 + px)) (2 * (a1 + a2)))
        (nearest (a1 * (y0 + py) + a2 * (py + y1)) (2 * (a1 + a2)))
  | _ => mkPoint 0 0
  end.

(** The bounding box of a polygon that has one. *)
Definition box (g : shape) : option (OGREnvelope Z) :=
  match g with
  | Rect x0 y0 x1 y1 | LShape x0 y0 x1 y1 _ _ => Some (mkEnvelope x0 x1 y0 y1)
  | _ => None
  end.

Definition merge (e1 e2 : OGREnvelope Z) : OGREnvelope Z :=
  mkEnvelope (Z.min (MinX e1) (MinX e2)) (Z.max (MaxX e1) (MaxX e2))
             (Z.min (MinY e1) (MinY e2)) (Z.max (MaxY e1) (MaxY e2)).

Definition hull (boxes : list (OGREnvelope Z)) : OGREnvelope Z :=
  match boxes with
  | [] => mkEnvelope 0 0 0 0
  | e :: rest => fold_right merge e rest
  end.

(** The bounding box of a multipolygon spans its polygons. *)
Definition envelope (g : shape) : OGREnvelope Z :=
  match g with
  | Multi parts => hull (omap box parts)
  | _ => default (mkEnvelope 0 0 0 0) (box g)
  end.

Definition add_ring (g : shape) (ring : OGRLinearRing Z) : shape :=
  match g, ring with
  | NoShape, [a; b; c; d; e] =>
      if point_eqb b (mkPoint (getX a) (getY c)) &&
         point_eqb d (mkPoint (getX c) (getY a)) &&
         point_eqb e a
      then Rect (getX a) (getY a) (getX c) (getY c)
      else g
  | _, _ => g
  end.

(** The part of the box [u0..u1] by [v0..v1] outside the notch whose
    corner is [(px, py)]. *)
Definition cut_notch (u0 v0 u1 v1 px py : Z) : shape :=
  if (u1 <=? px) || (v1 <=? py) then Rect u0 v0 u1 v1
  else if (px <=? u0) && (py <=? v0) then NoShape
  else if px <=? u0 then Rect u0 v0 u1 py
  else if py <=? v0 then Rect u0 v0 px v1
  else LShape u0 v0 u1 v1 px py.

Definition intersection (mask g : shape) : option shape :=
  match mask with
  | Rect a0 b0 a1 b1 =>
      match g with
      | Rect x0 y0 x1 y1 | LShape x0 y0 x1 y1 _ _ =>
          let u0 := Z.max a0 x0 in
          let u1 := Z.min a1 x1 in
          let v0 := Z.max b0 y0 in
          let v1 := Z.min b1 y1 in
          if (u0 <? u1) && (v0 <? v1) then
            match g with
            | LShape _ _ _ _ px py => Some (cut_notch u0 v0 u1 v1 px py)
            | _ => Some (Rect u0 v0 u1 v1)
            end
          else Some NoShape
      | NoShape => Some NoShape
      | _ => None
      end
  | _ => None
  end.

#[export] Instance engine : GeometryEngine Z shape := {
  zero := 0;
  IsEmpty := is_empty;
  getGeometryType := geometry_type;
  getNumGeometries := num_geometries;
  getGeometryRef := geometry_ref;
  getExteriorRing := exterior_ring;
  clone := fun g => g;
  IsValid := is_valid;
  IsSimple := is_valid;
  Buffer := buffer;
  Centroid := centroid;
  getEnvelope := envelope;
  OGRPolygon_new := NoShape;
  addRing := add_ring;
  Intersection := intersection
}.

(** The area, for reference, in squares of the grid. *)
Fixpoint area (g : shape) : Z :=
  match g with
  | Rect x0 y0 x1 y1 => (x1 - x0) * (y1 - y0)
  | LShape x0 y0 x1 y1 px py =>
      (x1 - x0) * (y1 - y0) - (x1 - px) * (y1 - py)
  | Multi parts => fold_right (fun part acc => area part + acc) 0 parts
  | _ => 0
  end.








(** The square [0..2] by [0..2] written as an L-shape whose notch has
    no width, and its four quarters. *)
Definition flat_L : shape := LShape 0 0 2 2 2 1.

End Grid.

(** ** Areas and extents

    Two notions of the specification that the source does not compute:
    the area of a geometry, as [get_Area] of the library gives it, and
    the extent of a bounding box. *)

Section Areas.
Context {R Geometry : Type} {GE : GeometryEngine R Geometry}.
Variable area : Geometry -> Q.



End Areas.

Section Extents.
Context {R Geometry : Type} {GE : GeometryEngine R Geometry}.

(** [rank] gives the position of a coordinate among the numbers that
    the engine can represent, counted in steps: between two values of a
    [double] there are finitely many others. *)
Variable rank : R -> Z.




End Extents.

(** ** Notions for the further properties *)

Section SplitterNotions.
Context {R Geometry : Type} {GE : GeometryEngine R Geometry}.

(** [piece] is the clone of a non-empty polygon whose exterior ring has
    at most [T] points: what line 67 pushes. *)
Definition emitted (T : Z) (piece : Geometry) : Prop :=
  exists q : Geometry,
    piece = clone q /\ IsEmpty q = false /\
    getGeometryType q = wkbPolygon /\
    getNumPoints (getExteriorRing q) <= T.

(** A geometry on which [split_polygons] does not recurse: [NULL], an
    empty geometry, a geometry that is neither a polygon nor a
    multipolygon, or a polygon within the threshold. *)
Definition is_leaf (T : Z) (geometry : option Geometry) : bool :=
  match geometry with
  | None => true
  | Some g =>
      IsEmpty g ||
      (negb (wkb_eqb (getGeometryType g) wkbMultiPolygon) &&
       (negb (wkb_eqb (getGeometryType g) wkbPolygon) ||
        (getNumPoints (getExteriorRing g) <=? T)))
  end.

(** What a call on a leaf adds: the warning for [NULL], the clone for a
    non-empty polygon, nothing otherwise. *)
Definition shallow (T : Z) (geometry : option Geometry) : state Geometry :=
  match geometry with
  | None => mkState [] [null_warning]
  | Some g =>
      if IsEmpty g then empty_state
      else if wkb_eqb (getGeometryType g) wkbPolygon
           then mkState [clone g] []
           else empty_state
  end.

(** The pieces that a call pushes onto an empty accumulator. *)
Definition pieces_of (fuel : nat) (geometry : option Geometry) (T : Z)
    : list Geometry :=
  pieces (snd (split_polygons fuel empty_state geometry T)).
End SplitterNotions.

Section MainNotions.
Context {R Geometry : Type} {GE : GeometryEngine R Geometry}.
Variable show_int : Z -> string.

(** The option letters of the [getopt] string of line 185. *)
Definition known_option (c : ascii) : bool :=
  Ascii.eqb c "i" || Ascii.eqb c "o" || Ascii.eqb c "f" ||
  Ascii.eqb c "n" || Ascii.eqb c "m" || Ascii.eqb c "v".

(** The argument of the last answer of [getopt] that carries the
    letter [c]. *)
Fixpoint last_option (c : ascii) (answers : list (ascii * string))
    : option string :=
  match answers with
  | [] => None
  | answer :: rest =>
      match last_option c rest with
      | Some optarg => Some optarg
      | None => if Ascii.eqb (fst answer) c then Some (snd answer) else None
      end
  end.

(** The layer that lines 212-227 read from. *)
Definition source_layer (w : OGRWorld Geometry) (o : options)
    (source_name : string) : option (OGRLayer (Geometry := Geometry)) :=
  match open_source w source_name with
  | Some source =>
      match src_layer_name o with
      | Some name => GetLayerByName source name
      | None => GetLayer0 source
      end
  | None => None
  end.

(** The value of [id_field] after lines 231-244, when they do not
    exit. *)
Definition id_field_index (o : options)
    (srcLayer : OGRLayer (Geometry := Geometry)) : Z :=
  match id_field_name o with
  | None => -1
  | Some name => GetFieldIndex srcLayer name
  end.

(** The [id] of lines 268-269. *)
Definition feature_id (id_field : Z)
    (feature : OGRFeature (Geometry := Geometry)) : Z :=
  to_int (if 0 <=? id_field then GetFieldAsInteger feature id_field
          else GetFID feature).

(** The line written at lines 298-299. *)
Definition summary_line (features_read features_written : Z) : string :=
  (show_int features_read ++ " features read, "
   ++ show_int features_written ++ " written." ++ newline)%string.

(** The features written for the features of a layer: for each
    feature, in order, its pieces under its id. *)
Definition features_for (fuel : nat) (T id_field : Z)
    (features : list (OGRFeature (Geometry := Geometry)))
    : list (Z * Geometry) :=
  flat_map
    (fun feature =>
       map (pair (feature_id id_field feature))
           (pieces_of fuel (GetGeometryRef feature) T))
    features.
End MainNotions.

(** ** Basic facts about the embedding *)

Lemma wkb_eqb_eq a b : wkb_eqb a b = true <-> a = b.
Proof.
  destruct a, b; simpl; try (split; congruence).
  rewrite Z.eqb_eq. split; congruence.
Qed.

Lemma wkb_eqb_neq a b : wkb_eqb a b = false <-> a <> b.
Proof.
  rewrite <- wkb_eqb_eq. destruct (wkb_eqb a b); split; congruence.
Qed.

Section SplitterFacts.
Context {R Geometry : Type} {GE : GeometryEngine R Geometry}.

Implicit Types (st d : state Geometry) (r : result Geometry) (T : Z).

Lemma bind_ret r : bind r ret = r.
Proof. destruct r as [[] st]; reflexivity. Qed.

Lemma bind_assoc r (k1 k2 : state Geometry -> result Geometry) :
  bind (bind r k1) k2 = bind r (fun st => bind (k1 st) k2).
Proof. destruct r as [[] st]; reflexivity. Qed.

Lemma bind_not_returned r k : fst r <> Returned -> bind r k = r.
Proof. destruct r as [[] st]; simpl; congruence. Qed.

Lemma extend_empty_l d : extend empty_state d = d.
Proof. destruct d; reflexivity. Qed.

Lemma extend_empty_r st : extend st empty_state = st.
Proof. destruct st; unfold extend; simpl; by rewrite !app_nil_r. Qed.

Lemma extend_assoc st d1 d2 :
  extend (extend st d1) d2 = extend st (extend d1 d2).
Proof. unfold extend; simpl; by rewrite !app_assoc. Qed.

(** The mask ring built by [setNumPoints] and five [setPoint]s is the
    closed rectangle of the box. *)
Lemma mask_ring_rectangle (bbox : OGREnvelope R) :
  mask_ring bbox =
  rectangle_ring (MinX bbox) (MinY bbox) (MaxX bbox) (MaxY bbox).
Proof. reflexivity. Qed.

Lemma make_mask_rectangle (bbox : OGREnvelope R) :
  make_mask bbox = rectangle (MinX bbox) (MinY bbox) (MaxX bbox) (MaxY bbox).
Proof. reflexivity. Qed.

(** The loop written as a run over the list of its arguments. *)
Lemma for_loop_fold (body : Z -> state Geometry -> result Geometry) n :
  forall i r,
    bind r (for_loop body i n) =
    fold_left (fun r' k => bind r' (body k))
              (map (fun j => i + Z.of_nat j) (seq 0 n)) r.
Proof.
  induction n as [|n IH]; intros i r; simpl.
  - apply bind_ret.
  - rewrite <- seq_shift, map_map.
    rewrite <- (bind_assoc r (body i) (for_loop body (i + 1) n)).
    rewrite IH. rewrite Z.add_0_r.
    f_equal. apply map_ext. intros j. lia.
Qed.

(** *** The accumulator is only extended *)

Lemma framed_bind f k :
  framed f -> (forall st, framed (fun st' => k st')) ->
  framed (fun st => bind (f st) k).
Proof.
  intros Hf Hk st. rewrite (Hf st).
  destruct (f empty_state) as [[] d] eqn:E; simpl; try reflexivity.
  rewrite (Hk st (extend st d)), (Hk st d). simpl.
  by rewrite extend_assoc.
Qed.

Lemma framed_for_loop (body : Z -> state Geometry -> result Geometry) n :
  (forall i, framed (body i)) -> forall i, framed (for_loop body i n).
Proof.
  intros Hb. induction n as [|n IH]; intros i; simpl.
  - intros st. unfold ret. simpl. by rewrite extend_empty_r.
  - apply framed_bind; auto.
Qed.

Lemma split_polygons_framed fuel :
  forall geometry T, framed (fun st => split_polygons fuel st geometry T).
Proof.
  induction fuel as [|fuel IH]; intros geometry T st; cbn [split_polygons].
  - simpl. by rewrite extend_empty_r.
  - destruct geometry as [g|];
      [|unfold ret, write_cerr, extend; simpl; by rewrite app_nil_r].
    destruct (IsEmpty g); [unfold ret; simpl; by rewrite extend_empty_r|].
    destruct (wkb_eqb (getGeometryType g) wkbMultiPolygon).
    { apply (framed_for_loop
               (fun i st' => split_polygons fuel st' (getGeometryRef g i) T)).
      intros i. apply IH. }
    destruct (negb (wkb_eqb (getGeometryType g) wkbPolygon));
      [unfold ret; simpl; by rewrite extend_empty_r|].
    destruct (getNumPoints (getExteriorRing g) <=? T);
      [unfold ret, push_back, extend; simpl; by rewrite app_nil_r|].
    destruct (tidy g) as [p|]; [|simpl; by rewrite extend_empty_r].
    apply (framed_for_loop
             (fun quadrant st' =>
                split_polygons fuel st'
                  (Intersection
                     (make_mask
                        (quadrant_bbox (getEnvelope p) (getX (Centroid p))
                           (getY (Centroid p)) quadrant)) p) T)).
    intros i. apply IH.
Qed.

(** *** More fuel does not change a run that ended *)

Lemma for_loop_more_fuel (b1 b2 : Z -> state Geometry -> result Geometry) n :
  (forall i st r, b1 i st = r -> fst r <> OutOfFuel -> b2 i st = r) ->
  forall i st r,
    for_loop b1 i n st = r -> fst r <> OutOfFuel -> for_loop b2 i n st = r.
Proof.
  intros Hb. induction n as [|n IH]; intros i st r; simpl; [done|].
  intros Hr Hne.
  destruct (b1 i st) as [s1 st1] eqn:E1.
  destruct s1; simpl in Hr.
  - rewrite (Hb i st _ E1); simpl; [eauto | congruence].
  - subst r. simpl in Hne. congruence.
  - rewrite (Hb i st _ E1); simpl; [done | congruence].
Qed.

Lemma split_polygons_more_fuel fuel :
  forall fuel' st geometry T r,
    split_polygons fuel st geometry T = r -> fst r <> OutOfFuel ->
    (fuel <= fuel')%nat ->
    split_polygons fuel' st geometry T = r.
Proof.
  induction fuel as [|fuel IH]; intros fuel' st geometry T r Hr Hne Hle.
  - simpl in Hr. subst r. simpl in Hne. congruence.
  - destruct fuel' as [|fuel']; [lia|].
    cbn [split_polygons] in *.
    destruct geometry as [g|]; [|done].
    destruct (IsEmpty g); [done|].
    destruct (wkb_eqb (getGeometryType g) wkbMultiPolygon).
    { revert Hr Hne. apply for_loop_more_fuel.
      intros i st1 r1 H1 H2. apply (IH fuel'); [done..|lia]. }
    destruct (negb (wkb_eqb (getGeometryType g) wkbPolygon)); [done|].
    destruct (getNumPoints (getExteriorRing g) <=? T); [done|].
    destruct (tidy g) as [p|]; [|done].
    revert Hr Hne. apply for_loop_more_fuel.
    intros i st1 r1 H1 H2. apply (IH fuel'); [done..|lia].
Qed.
End SplitterFacts.

(** ** What one activation does, case by case *)

Section SplitterCases.
Context {R Geometry : Type} {GE : GeometryEngine R Geometry}.

Implicit Types (st d : state Geometry) (r : result Geometry)
  (P multi : Geometry) (T : Z).

Lemma run_all_from fuel T gs :
  forall r,
    fold_left
      (fun r' g => bind r' (fun st' => split_polygons fuel st' g T)) gs r =
    bind r (run_all fuel T gs).
Proof.
  unfold run_all.
  induction gs as [|g gs IH]; intros r; simpl; [by rewrite bind_ret|].
  rewrite IH. destruct r as [[] st1]; simpl; try reflexivity.
  by rewrite (IH (split_polygons fuel st1 g T)).
Qed.

Lemma run_all_app fuel T gs1 gs2 st :
  run_all fuel T (gs1 ++ gs2) st =
  bind (run_all fuel T gs1 st) (run_all fuel T gs2).
Proof.
  unfold run_all at 1. rewrite fold_left_app. apply run_all_from.
Qed.

Lemma run_all_cons fuel T g gs st :
  run_all fuel T (g :: gs) st =
  bind (split_polygons fuel st g T) (run_all fuel T gs).
Proof.
  change (g :: gs) with ([g] ++ gs). rewrite run_all_app. reflexivity.
Qed.

Lemma for_loop_run_all fuel T (arg : Z -> option Geometry) n st :
  for_loop (fun i st' => split_polygons fuel st' (arg i) T) 0 n st =
  run_all fuel T (map (fun j => arg (Z.of_nat j)) (seq 0 n)) st.
Proof.
  change (for_loop (fun i st' => split_polygons fuel st' (arg i) T) 0 n st)
    with (bind (ret st)
            (for_loop (fun i st' => split_polygons fuel st' (arg i) T) 0 n)).
  rewrite for_loop_fold. unfold run_all.
  generalize (ret st). generalize (seq 0 n). intros l.
  induction l as [|j l IH]; intros r; simpl; [done|]. apply IH.
Qed.

(** A call on a non-empty multipolygon is the run over its members. *)
Lemma split_polygons_multi fuel st multi T :
  IsEmpty multi = false ->
  getGeometryType multi = wkbMultiPolygon ->
  split_polygons (S fuel) st (Some multi) T =
  run_all fuel T (members multi) st.
Proof.
  intros He Ht. cbn [split_polygons]. rewrite He, Ht. simpl wkb_eqb. cbv iota.
  apply (for_loop_run_all fuel T (getGeometryRef multi)).
Qed.

Lemma quadrants_pieces P :
  quadrants P = map (fun j => quadrant_piece P (Z.of_nat j)) (seq 0 4).
Proof. reflexivity. Qed.

(** A call on an oversized polygon is the run over the four quadrants
    of the tidied polygon. *)
Lemma split_polygons_oversized fuel st P P' T :
  IsEmpty P = false ->
  getGeometryType P = wkbPolygon ->
  oversized P T ->
  tidy P = Some P' ->
  split_polygons (S fuel) st (Some P) T = run_all fuel T (quadrants P') st.
Proof.
  intros He Ht Ho Hb. cbn [split_polygons]. rewrite He, Ht. simpl wkb_eqb.
  cbv iota. simpl negb. cbv iota.
  unfold oversized in Ho.
  replace (getNumPoints (getExteriorRing P) <=? T) with false
    by (symmetry; apply Z.leb_gt; exact Ho).
  rewrite Hb. rewrite quadrants_pieces.
  apply (for_loop_run_all fuel T (quadrant_piece P')).
Qed.

Lemma split_polygons_small fuel st P T :
  IsEmpty P = false ->
  getGeometryType P = wkbPolygon ->
  getNumPoints (getExteriorRing P) <= T ->
  split_polygons (S fuel) st (Some P) T = ret (push_back (clone P) st).
Proof.
  intros He Ht Hs. cbn [split_polygons]. rewrite He, Ht. simpl.
  by replace (getNumPoints (getExteriorRing P) <=? T) with true
    by (symmetry; apply Z.leb_le; exact Hs).
Qed.

(** *** Runs over lists *)

Lemma join_nil : join (Geometry:=Geometry) [] = empty_state.
Proof. reflexivity. Qed.

Lemma join_cons d ds : join (d :: ds) = extend d (join ds).
Proof. reflexivity. Qed.

Lemma run_all_returned fuel T gs :
  forall st st',
    run_all fuel T gs st = (Returned, st') <->
    exists ds,
      Forall2 (fun g d => split_polygons fuel empty_state g T = (Returned, d))
              gs ds /\
      st' = extend st (join ds).
Proof.
  induction gs as [|g gs IH]; intros st st'.
  - unfold run_all, ret; simpl. split.
    + intros [= <-]. exists []. split; [constructor|].
      by rewrite join_nil, extend_empty_r.
    + intros (ds & Hds & ->). inversion Hds; subst.
      by rewrite join_nil, extend_empty_r.
  - rewrite run_all_cons.
    rewrite (split_polygons_framed fuel g T st).
    destruct (split_polygons fuel empty_state g T) as [s d] eqn:E. simpl.
    split.
    + intros H. destruct s; simpl in H; try discriminate.
      apply IH in H as (ds & Hds & ->).
      exists (d :: ds). split; [by constructor|].
      by rewrite join_cons, extend_assoc.
    + intros (ds & Hds & ->). inversion Hds as [|? d1 ? ds1 H1 H2]; subst.
      rewrite E in H1. injection H1 as -> ->. simpl. apply IH.
      exists ds1. split; [done|]. by rewrite join_cons, extend_assoc.
Qed.

(** One amount of fuel serves a whole list of runs that return. *)
Lemma splits_common_fuel T gs ds :
  Forall2 (fun g d => splits g T d) gs ds ->
  exists fuel,
    Forall2 (fun g d => split_polygons fuel empty_state g T = (Returned, d))
            gs ds.
Proof.
  induction 1 as [|g d gs ds [f1 H1] _ [f2 IH]].
  - exists O. constructor.
  - exists (max f1 f2). constructor.
    + eapply split_polygons_more_fuel; [exact H1|simpl; congruence|lia].
    + eapply Forall2_impl; [exact IH|]. simpl. intros g' d' H'.
      eapply split_polygons_more_fuel; [exact H'|simpl; congruence|lia].
Qed.

Lemma splits_run_all T gs d :
  (exists fuel, run_all fuel T gs empty_state = (Returned, d)) <->
  exists ds, Forall2 (fun g d' => splits g T d') gs ds /\ d = join ds.
Proof.
  split.
  - intros [fuel H]. apply run_all_returned in H as (ds & Hds & ->).
    exists ds. split; [|by rewrite extend_empty_l].
    eapply Forall2_impl; [exact Hds|]. intros g' d' H'. by exists fuel.
  - intros (ds & Hds & ->). apply splits_common_fuel in Hds as [fuel Hds].
    exists fuel. apply run_all_returned. exists ds.
    split; [done|]. by rewrite extend_empty_l.
Qed.

Lemma splits_S geometry T d :
  splits geometry T d <->
  exists fuel, split_polygons (S fuel) empty_state geometry T = (Returned, d).
Proof.
  split; intros [fuel H].
  - exists fuel. eapply split_polygons_more_fuel; [exact H|simpl; congruence|lia].
  - by exists (S fuel).
Qed.

Lemma leaf_shallow T geometry fuel st :
  is_leaf T geometry = true ->
  split_polygons (S fuel) st geometry T =
  (Returned, extend st (shallow T geometry)).
Proof.
  destruct geometry as [g|];
    [|intros _; cbn; unfold write_cerr, extend; cbn; by rewrite app_nil_r].
  cbn [is_leaf shallow split_polygons]. intros H.
  destruct (IsEmpty g); [by rewrite extend_empty_r|].
  destruct (wkb_eqb (getGeometryType g) wkbMultiPolygon); [done|].
  destruct (wkb_eqb (getGeometryType g) wkbPolygon);
    [|by rewrite extend_empty_r].
  simpl in H. rewrite H. unfold ret, push_back, extend. cbn.
  by rewrite app_nil_r.
Qed.

Lemma run_all_leaves T fuel gs :
  forallb (is_leaf T) gs = true ->
  forall st,
    run_all (S fuel) T gs st = (Returned, extend st (join (map (shallow T) gs))).
Proof.
  induction gs as [|g gs IH]; intros Hl st.
  - cbn [map]. by rewrite join_nil, extend_empty_r.
  - simpl in Hl. apply andb_prop in Hl as [Hg Hgs].
    rewrite run_all_cons, leaf_shallow by done. simpl.
    rewrite IH by done. cbn [map]. by rewrite join_cons, extend_assoc.
Qed.

End SplitterCases.

(** ** Properties of [split_polygons] over any engine *)

Section SplitterInvariants.
Context {R Geometry : Type} {GE : GeometryEngine R Geometry}.

Implicit Types (st d : state Geometry) (r : result Geometry)
  (P multi : Geometry) (T : Z).

Lemma for_loop_preserves (Inv : state Geometry -> Prop)
    (body : Z -> state Geometry -> result Geometry) :
  (forall i st, Inv st -> Inv (snd (body i st))) ->
  forall n i st, Inv st -> Inv (snd (for_loop body i n st)).
Proof.
  intros Hb. induction n as [|n IH]; intros i st Hst; simpl; [done|].
  specialize (Hb i st Hst).
  destruct (body i st) as [[] st1]; simpl in *; auto.
Qed.

(** Whatever holds of the pieces and is kept by [push_back] of a clone
    of a small polygon holds of the pieces at every point of a run. *)
Lemma split_polygons_preserves (Inv : list Geometry -> Prop) T :
  (forall l P, Inv l -> getNumPoints (getExteriorRing P) <= T ->
               Inv (l ++ [clone P])) ->
  forall fuel st geometry,
    Inv (pieces st) ->
    Inv (pieces (snd (split_polygons fuel st geometry T))).
Proof.
  intros Hpush. induction fuel as [|fuel IH]; intros st geometry Hst;
    cbn [split_polygons]; [done|].
  destruct geometry as [g|]; [|done].
  destruct (IsEmpty g); [done|].
  destruct (wkb_eqb (getGeometryType g) wkbMultiPolygon).
  { apply (for_loop_preserves (fun s => Inv (pieces s))); [|done].
    intros i s Hs. by apply IH. }
  destruct (negb (wkb_eqb (getGeometryType g) wkbPolygon)); [done|].
  destruct (getNumPoints (getExteriorRing g) <=? T) eqn:Hle.
  { simpl. apply Hpush; [done|]. by apply Z.leb_le. }
  destruct (tidy g) as [p|]; [|done].
  apply (for_loop_preserves (fun s => Inv (pieces s))); [|done].
  intros i s Hs. by apply IH.
Qed.

Lemma split_polygons_added fuel st geometry T :
  snd (split_polygons fuel st geometry T) =
  extend st (snd (split_polygons fuel empty_state geometry T)).
Proof. by rewrite (split_polygons_framed fuel geometry T st). Qed.


(** C10: for every geometry, threshold and prior content of the
    accumulator, [split_polygons] only appends: at whatever point the
    run stands (returned, out of fuel or stopped on a [NULL]), the
    pieces that were in the accumulator before the call are a prefix
    of the accumulator, same elements at the same positions; the same
    holds of the lines on [cerr]. *)
Theorem split_polygons_only_appends fuel st geometry T :
  exists (added : list Geometry) (written : list string),
    pieces (snd (split_polygons fuel st geometry T)) = pieces st ++ added /\
    cerr (snd (split_polygons fuel st geometry T)) = cerr st ++ written /\
    take (length (pieces st))
         (pieces (snd (split_polygons fuel st geometry T))) = pieces st.
Proof.
  rewrite split_polygons_added.
  exists (pieces (snd (split_polygons fuel empty_state geometry T))),
         (cerr (snd (split_polygons fuel empty_state geometry T))).
  simpl. repeat split. by rewrite take_app_length.
Qed.

(** C1: for every polygon [P] with more boundary points than the
    threshold [T], every piece that [split_polygons] pushes has at
    most [T] boundary points.  The only [push_back] of the source is
    guarded by the test of line 66, so no oversized piece is ever
    emitted, also when the recursion cannot reduce a geometry any
    further.  The engine's [clone] is taken to copy the exterior
    ring. *)
Theorem pieces_within_threshold
    (clone_ring : forall p : Geometry,
        getExteriorRing (clone p) = getExteriorRing p)
    fuel st P T :
  IsEmpty P = false ->
  getGeometryType P = wkbPolygon ->
  oversized P T ->
  exists added : list Geometry,
    pieces (snd (split_polygons fuel st (Some P) T)) = pieces st ++ added /\
    Forall (fun piece => getNumPoints (getExteriorRing piece) <= T) added.
Proof.
  intros _ _ _. rewrite split_polygons_added.
  exists (pieces (snd (split_polygons fuel empty_state (Some P) T))).
  split; [done|].
  apply (split_polygons_preserves
           (Forall (fun piece => getNumPoints (getExteriorRing piece) <= T)));
    [|constructor].
  intros l p Hl Hp. apply Forall_app. split; [done|].
  constructor; [|constructor]. by rewrite clone_ring.
Qed.

(** C5: for every non-empty polygon [P] whose exterior ring has at
    most [T] points ([T] itself included), [split_polygons] returns
    having pushed exactly one piece, the object that [clone] made of
    [P], and having written nothing; with an engine whose [clone]
    copies the exterior ring the piece has the boundary of [P]. *)
Theorem small_polygon_cloned
    (clone_ring : forall p : Geometry,
        getExteriorRing (clone p) = getExteriorRing p)
    fuel st P T :
  IsEmpty P = false ->
  getGeometryType P = wkbPolygon ->
  getNumPoints (getExteriorRing P) <= T ->
  split_polygons (S fuel) st (Some P) T =
    (Returned, mkState (pieces st ++ [clone P]) (cerr st)) /\
  splits (Some P) T (mkState [clone P] []) /\
  getExteriorRing (clone P) = getExteriorRing P.
Proof.
  intros He Ht Hs. split; [|split].
  - by rewrite split_polygons_small.
  - exists 1%nat. by rewrite split_polygons_small.
  - apply clone_ring.
Qed.

(** C6: for every non-empty multipolygon and every threshold,
    [split_polygons] runs on the members in index order, each run
    starting from what the runs before it left; it returns exactly
    when every member's run returns, and what it returns is the
    concatenation of the members' results in that order.  In
    particular, when every member is a leaf (a polygon within the
    threshold, an empty geometry, a geometry of another type or
    [NULL]) the call returns having pushed the clones of the non-empty
    polygon members, in index order. *)
Theorem multipolygon_concatenation multi T :
  IsEmpty multi = false ->
  getGeometryType multi = wkbMultiPolygon ->
  (forall fuel st,
      split_polygons (S fuel) st (Some multi) T =
      run_all fuel T (members multi) st) /\
  (forall d,
      splits (Some multi) T d <->
      exists ds,
        Forall2 (fun m d' => splits m T d') (members multi) ds /\
        d = join ds) /\
  (forallb (is_leaf T) (members multi) = true ->
   forall fuel st,
     split_polygons (S (S fuel)) st (Some multi) T =
     (Returned, extend st (join (map (shallow T) (members multi))))).
Proof.
  intros He Ht. split; [|split].
  - intros fuel st. by apply split_polygons_multi.
  - intros d. rewrite splits_S, <- splits_run_all.
    split; intros [fuel H]; exists fuel;
      [by rewrite <- (split_polygons_multi fuel _ multi T)
      |by rewrite (split_polygons_multi fuel _ multi T)].
  - intros Hl fuel st. rewrite split_polygons_multi by done.
    by apply run_all_leaves.
Qed.

(** C7: for every threshold, [split_polygons] on a [NULL] geometry, on
    an empty geometry and on a geometry that is neither a polygon nor
    a multipolygon returns with no piece pushed; the [NULL] case
    writes the warning to [cerr], the other two write nothing. *)
Theorem null_empty_other_no_pieces fuel st T :
  split_polygons (S fuel) st None T =
    (Returned, mkState (pieces st) (cerr st ++ [null_warning])) /\
  (forall g : Geometry,
      IsEmpty g = true ->
      split_polygons (S fuel) st (Some g) T = (Returned, st)) /\
  (forall g : Geometry,
      getGeometryType g <> wkbPolygon ->
      getGeometryType g <> wkbMultiPolygon ->
      split_polygons (S fuel) st (Some g) T = (Returned, st)).
Proof.
  split; [reflexivity|]. split; intros g.
  - intros He. cbn [split_polygons]. by rewrite He.
  - intros Hp Hm. cbn [split_polygons].
    destruct (IsEmpty g); [done|].
    apply wkb_eqb_neq in Hp, Hm. by rewrite Hm, Hp.
Qed.

(** C4: for every non-empty polygon with more boundary points than the
    threshold, [split_polygons] makes four recursive calls with the
    same threshold, one after the other on the same accumulator, on
    the intersections of the tidied polygon with the four rectangles
    that the centroid cuts out of its bounding box; it returns exactly
    when the four calls return, with their pieces appended in the
    order of the calls.  In particular, when the four intersections
    are leaves (polygons within the threshold, empty geometries,
    geometries of another type or [NULL]) the call returns having
    pushed the clones of the intersections that are non-empty
    polygons, in the order of the quadrants. *)
Theorem oversized_polygon_quadrants P P' T :
  IsEmpty P = false ->
  getGeometryType P = wkbPolygon ->
  oversized P T ->
  tidy P = Some P' ->
  let e := getEnvelope P' in
  let c := Centroid P' in
  quadrants P' =
    [ Intersection (rectangle (MinX e) (MinY e) (getX c) (getY c)) P';
      Intersection (rectangle (MinX e) (getY c) (getX c) (MaxY e)) P';
      Intersection (rectangle (getX c) (MinY e) (MaxX e) (getY c)) P';
      Intersection (rectangle (getX c) (getY c) (MaxX e) (MaxY e)) P' ] /\
  (forall fuel st,
      split_polygons (S fuel) st (Some P) T =
      run_all fuel T (quadrants P') st) /\
  (forall d,
      splits (Some P) T d <->
      exists ds,
        Forall2 (fun q d' => splits q T d') (quadrants P') ds /\
        d = join ds) /\
  (forallb (is_leaf T) (quadrants P') = true ->
   forall fuel st,
     split_polygons (S (S fuel)) st (Some P) T =
     (Returned, extend st (join (map (shallow T) (quadrants P'))))).
Proof.
  intros He Ht Ho Hb e c. split; [reflexivity|]. split; [|split].
  - intros fuel st. by apply split_polygons_oversized.
  - intros d. rewrite splits_S, <- splits_run_all.
    split; intros [fuel H]; exists fuel;
      [by rewrite <- (split_polygons_oversized fuel _ P P' T)
      |by rewrite (split_polygons_oversized fuel _ P P' T)].
  - intros Hl fuel st.
    rewrite (split_polygons_oversized (S fuel) st P P' T) by done.
    by apply run_all_leaves.
Qed.

(** C8: for every non-empty polygon with more boundary points than the
    threshold that is not valid or not simple, and for which
    [Buffer(0)] returns an object [P'], every later step of the call
    uses [P'] and not [P]: the centroid and the envelope are those of
    [P'], the four masks are intersected with [P'], and [Buffer] is
    not applied to [P'] again.  The call itself writes nothing to
    [cerr]: it returns when the four recursive calls return, and
    [cerr] then holds what they wrote. *)
Theorem invalid_polygon_repaired P P' T :
  IsEmpty P = false ->
  getGeometryType P = wkbPolygon ->
  oversized P T ->
  IsValid P = false \/ IsSimple P = false ->
  Buffer P zero = Some P' ->
  let e := getEnvelope P' in
  let c := Centroid P' in
  forall fuel st,
    split_polygons (S fuel) st (Some P) T =
    run_all fuel T
      [ Intersection (rectangle (MinX e) (MinY e) (getX c) (getY c)) P';
        Intersection (rectangle (MinX e) (getY c) (getX c) (MaxY e)) P';
        Intersection (rectangle (getX c) (MinY e) (MaxX e) (getY c)) P';
        Intersection (rectangle (getX c) (getY c) (MaxX e) (MaxY e)) P' ]
      st.
Proof.
  intros He Ht Ho Hbad Hb e c fuel st.
  apply split_polygons_oversized; try done.
  unfold tidy. destruct Hbad as [-> | ->]; simpl; [done|].
  by rewrite orb_true_r.
Qed.
End SplitterInvariants.

(** ** The pieces cover the input *)

Section AreaConservation.
Context {R Geometry : Type} {GE : GeometryEngine R Geometry}.
Variable area : Geometry -> Q.

Implicit Types (st d : state Geometry) (P multi : Geometry) (T : Z).




End AreaConservation.

(** ** Termination *)

Section Termination.
Context {R Geometry : Type} {GE : GeometryEngine R Geometry}.


Variable rank : R -> Z.





End Termination.

(** ** Runs that cannot return *)

Section Divergence.
Context {R Geometry : Type} {GE : GeometryEngine R Geometry}.

Lemma Forall2_In_left {A B} (Q : A -> B -> Prop) l1 l2 x :
  Forall2 Q l1 l2 -> In x l1 -> exists y, Q x y.
Proof.
  induction 1 as [|a b l1 l2 Hab _ IH]; simpl; [done|].
  intros [<- | Hin]; eauto.
Qed.

(** A set of oversized polygons each of which has one of the set
    among its quadrant intersections: no call on a member returns. *)
Lemma split_polygons_never_returns (Bad : Geometry -> Prop) (T : Z) :
  (forall P, Bad P ->
     IsEmpty P = false /\ getGeometryType P = wkbPolygon /\
     oversized P T /\
     exists P' c, tidy P = Some P' /\ In (Some c) (quadrants P') /\ Bad c) ->
  forall fuel P (st : state Geometry),
    Bad P -> fst (split_polygons fuel st (Some P) T) <> Returned.
Proof.
  intros Hbad. induction fuel as [|fuel IH]; intros P st HP; [done|].
  destruct (Hbad P HP) as (He & Ht & Ho & P' & c & Hb & Hin & Hc).
  rewrite (split_polygons_oversized fuel st P P' T) by done.
  destruct (run_all fuel T (quadrants P') st) as [s st'] eqn:E.
  simpl. intros ->.
  apply run_all_returned in E as (ds & Hds & _).
  apply (Forall2_In_left _ _ _ (Some c)) in Hds as (d & Hd); [|done].
  apply (IH c empty_state Hc). by rewrite Hd.
Qed.

Lemma run_all_no_null_deref fuel T gs :
  Forall (fun g => forall st : state Geometry,
              fst (split_polygons fuel st g T) <> NullDeref) gs ->
  forall st, fst (run_all fuel T gs st) <> NullDeref.
Proof.
  induction 1 as [|g gs Hg _ IH]; intros st; [done|].
  rewrite run_all_cons. specialize (Hg st).
  destruct (split_polygons fuel st g T) as [[] st1]; simpl in *;
    [apply IH|done|done].
Qed.

(** When [Buffer(0)] always returns an object, no run stops on a
    [NULL] pointer. *)
Lemma split_polygons_no_null_deref (T : Z) :
  (forall g : Geometry, Buffer g zero <> None) ->
  forall fuel geometry (st : state Geometry),
    fst (split_polygons fuel st geometry T) <> NullDeref.
Proof.
  intros Hbuf. induction fuel as [|fuel IH]; intros geometry st; [done|].
  destruct geometry as [g|]; [|done].
  destruct (IsEmpty g) eqn:He; [by cbn [split_polygons]; rewrite He|].
  destruct (wkb_eqb (getGeometryType g) wkbMultiPolygon) eqn:Hm.
  { apply wkb_eqb_eq in Hm. rewrite split_polygons_multi by done.
    apply run_all_no_null_deref, List.Forall_forall. intros; apply IH. }
  destruct (wkb_eqb (getGeometryType g) wkbPolygon) eqn:Hp.
  2:{ cbn [split_polygons]. by rewrite He, Hm, Hp. }
  apply wkb_eqb_eq in Hp.
  destruct (Z_le_gt_dec (getNumPoints (getExteriorRing g)) T) as [Hs|Ho].
  { by rewrite split_polygons_small. }
  assert (Ho' : oversized g T) by (unfold oversized; lia).
  destruct (tidy g) as [P'|] eqn:Hb.
  - rewrite (split_polygons_oversized fuel st g P' T) by done.
    apply run_all_no_null_deref, List.Forall_forall. intros; apply IH.
  - unfold tidy in Hb.
    destruct (negb (IsValid g) || negb (IsSimple g)); [|done].
    by destruct (Hbuf g).
Qed.
End Divergence.

(** ** Facts about the exact engine *)

Module RectilinearFacts.
Import Rectilinear.

(** *** No rational number has square five *)

Lemma square_mod_5 (m : Z) : ((m * m) mod 5 = 0 -> m mod 5 = 0)%Z.
Proof.
  rewrite Z.mul_mod by lia.
  pose proof (Z.mod_pos_bound m 5 ltac:(lia)) as Hr.
  generalize dependent (m mod 5)%Z. intros r H Hr.
  assert (Hcases : (r = 0 \/ r = 1 \/ r = 2 \/ r = 3 \/ r = 4)%Z) by lia.
  destruct Hcases as [-> | [-> | [-> | [-> | ->]]]];
    first [reflexivity | discriminate].
Qed.

Lemma multiple_of_5 (m : Z) : ((m * m) mod 5 = 0 -> exists k, m = 5 * k)%Z.
Proof.
  intros H. apply square_mod_5 in H. exists (m / 5)%Z.
  pose proof (Z.div_mod m 5 ltac:(lia)). lia.
Qed.

Lemma five_squares_bounded (N : nat) :
  forall m n : Z,
    (Z.abs n < Z.of_nat N -> m * m = 5 * (n * n) -> n = 0)%Z.
Proof.
  induction N as [|N IH]; intros m n Hlt H; [lia|].
  destruct (multiple_of_5 m) as [k ->].
  { rewrite H. rewrite Z.mul_comm. apply Z.mod_mul. lia. }
  assert (Hn : (n * n = 5 * (k * k))%Z) by lia.
  destruct (multiple_of_5 n) as [j ->].
  { rewrite Hn. rewrite Z.mul_comm. apply Z.mod_mul. lia. }
  assert (Hk : (k * k = 5 * (j * j))%Z) by lia.
  destruct (Z.eq_dec j 0) as [-> | Hj]; [reflexivity|].
  assert (j = 0)%Z; [|lia].
  apply (IH k j); [lia|exact Hk].
Qed.

Lemma five_squares (m n : Z) : (m * m = 5 * (n * n) -> n = 0)%Z.
Proof. apply (five_squares_bounded (S (Z.to_nat (Z.abs n)))). lia. Qed.

Local Open Scope Q_scope.

Lemma five_squares_Q (u v : Q) : u * u == 5 * (v * v) -> v == 0.
Proof.
  destruct u as [a b], v as [c d]. unfold Qeq. simpl.
  rewrite !Pos2Z.inj_mul. intros H.
  assert (Hz : (c * Z.pos b = 0)%Z).
  { apply (five_squares (a * Z.pos d)). lia. }
  assert (c = 0)%Z by lia. lia.
Qed.

(** The equation that puts the centre of mass of a symmetric L-shape
    on the corner of its notch has no rational solution. *)
Lemma golden_ratio_irrational (s t : Q) :
  s * s - 3 * s * t + t * t == 0 -> t == 0.
Proof.
  intros H. apply (five_squares_Q (2 * s - 3 * t)).
  assert (E : (2 * s - 3 * t) * (2 * s - 3 * t) ==
              4 * (s * s - 3 * s * t + t * t) + 5 * (t * t)) by ring.
  rewrite E, H. ring.
Qed.

(** *** The centre of mass of a symmetric L-shape *)

Lemma centroid_symmetric_L x0 y0 x1 y1 px py :
  x0 < px -> px < x1 -> y0 < py -> py < y1 ->
  x1 - x0 == y1 - y0 -> px - x0 == py - y0 ->
  exists k,
    getX (centroid (LShape x0 y0 x1 y1 px py)) == x0 + k /\
    getY (centroid (LShape x0 y0 x1 y1 px py)) == y0 + k /\
    0 < k /\ k < x1 - x0 /\ ~ k == px - x0.
Proof.
  intros Hx0 Hx1 Hy0 Hy1 Hs Ht.
  set (s := x1 - x0). set (t := px - x0).
  assert (Hpos_t : 0 < t) by (unfold t; lra).
  assert (Hlt_ts : t < s) by (unfold s, t; lra).
  assert (Hy1' : y1 == y0 + s) by (unfold s; lra).
  assert (Hpy' : py == y0 + t) by (unfold t; lra).
  assert (Hx1' : x1 == x0 + s) by (unfold s; lra).
  assert (Hpx' : px == x0 + t) by (unfold t; lra).
  assert (Hden : 0 < 2 * (2 * s - t)) by lra.
  exists ((s * s + s * t - t * t) / (2 * (2 * s - t))).
  simpl. rewrite !Qred_correct.
  rewrite Hy1', Hpy', Hx1', Hpx'.
  split; [|split; [|split; [|split]]].
  - field. split; [lra|]. intros E. nra.
  - field. split; [lra|]. intros E. nra.
  - apply Qlt_shift_div_l; [exact Hden|]. nra.
  - apply Qlt_shift_div_r; [exact Hden|]. nra.
  - intros E.
    assert (E' : s * s + s * t - t * t == t * (2 * (2 * s - t))).
    { transitivity
        ((s * s + s * t - t * t) / (2 * (2 * s - t)) * (2 * (2 * s - t)));
        [field; lra | by rewrite E]. }
    assert (t == 0); [|lra].
    apply (golden_ratio_irrational s t). lra.
Qed.

(** *** Evaluating the engine on symbolic coordinates *)

Lemma Qle_bool_true a b : a <= b -> Qle_bool a b = true.
Proof. apply Qle_bool_iff. Qed.

Lemma Qle_bool_false a b : b < a -> Qle_bool a b = false.
Proof.
  intros H. apply not_true_is_false. rewrite Qle_bool_iff. lra.
Qed.

Ltac decide_comparisons :=
  repeat match goal with
  | |- context [Qle_bool ?a ?b] =>
      first [ rewrite (Qle_bool_true a b) by lra
            | rewrite (Qle_bool_false a b) by lra ]
  end.

Lemma rectangle_Rect (x0 y0 x1 y1 : Q) :
  rectangle (GE := engine) x0 y0 x1 y1 = Rect x0 y0 x1 y1.
Proof.
  unfold rectangle, rectangle_ring. simpl. unfold point_eqb. simpl.
  by rewrite !Qeq_bool_refl.
Qed.

Lemma quadrants_LShape x0 y0 x1 y1 px py :
  let L := LShape x0 y0 x1 y1 px py in
  let cx := getX (centroid L) in
  let cy := getY (centroid L) in
  quadrants (GE := engine) L =
  [ intersection (Rect x0 y0 cx cy) L; intersection (Rect x0 cy cx y1) L;
    intersection (Rect cx y0 x1 cy) L; intersection (Rect cx cy x1 y1) L ].
Proof.
  intros L cx cy. unfold quadrants.
  cbn [getEnvelope Centroid Intersection engine].
  rewrite !rectangle_Rect. reflexivity.
Qed.

Lemma symmetric_L_valid g : symmetric_L g -> is_valid g = true.
Proof.
  intros (x0 & y0 & x1 & y1 & px & py & -> & ? & ? & ? & ? & _).
  simpl. unfold Qlt_bool. by decide_comparisons.
Qed.

(** One of the four quadrant intersections of a symmetric L-shape is
    a symmetric L-shape again: the one that holds the corner of the
    notch, which the centre of mass never meets. *)
Lemma symmetric_L_child g :
  symmetric_L g ->
  exists c, In (Some c) (quadrants (GE := engine) g) /\ symmetric_L c.
Proof.
  intros (x0 & y0 & x1 & y1 & px & py & -> & Hx0 & Hx1 & Hy0 & Hy1 & Hs & Ht).
  destruct (centroid_symmetric_L x0 y0 x1 y1 px py)
    as (k & Hcx & Hcy & Hk0 & Hk1 & Hk); try done.
  rewrite quadrants_LShape.
  generalize dependent (getX (centroid (LShape x0 y0 x1 y1 px py))).
  generalize dependent (getY (centroid (LShape x0 y0 x1 y1 px py))).
  intros cy Hcy cx Hcx.
  destruct (Q_dec k (px - x0)) as [[Hlt | Hgt] | Heq]; [| |done].
  - exists (LShape cx cy x1 y1 px py). split.
    + do 3 right. left.
      unfold intersection, qmax, qmin, cut_notch, Qlt_bool.
      by decide_comparisons.
    + exists cx, cy, x1, y1, px, py. repeat split; lra.
  - exists (LShape x0 y0 cx cy px py). split.
    + left.
      unfold intersection, qmax, qmin, cut_notch, Qlt_bool.
      by decide_comparisons.
    + exists x0, y0, cx, cy, px, py. repeat split; lra.
Qed.

Lemma symmetric_L_bad g :
  symmetric_L g ->
  IsEmpty g = false /\ getGeometryType g = wkbPolygon /\
  oversized g 6 /\
  exists P' c,
    tidy g = Some P' /\ In (Some c) (quadrants P') /\ symmetric_L c.
Proof.
  intros Hg. destruct (symmetric_L_child g Hg) as (c & Hin & Hc).
  pose proof (symmetric_L_valid g Hg) as Hv.
  destruct Hg as (x0 & y0 & x1 & y1 & px & py & -> & _).
  repeat split.
  exists (LShape x0 y0 x1 y1 px py), c. repeat split; try done.
  unfold tidy. cbn [IsValid IsSimple engine]. by rewrite Hv.
Qed.

Lemma buffer_returns (g : shape) : buffer g 0 <> None.
Proof. by destruct g. Qed.

Lemma square_L_symmetric : symmetric_L square_L.
Proof. exists 0, 0, 2, 2, 1, 1. repeat split; lra. Qed.

(** *** The statements above on concrete inputs *)

(** Finite precision is what ends the recursion.  In exact arithmetic
    the L-shaped hexagon [square_L], of area 3, is cut for ever when
    the threshold is 6: its centre of mass lies on the diagonal, inside
    the L, so that one quadrant intersection is an L-shape of the same
    kind again, with seven boundary points, and the ratio of its sides
    could only become that of a rectangle if the golden ratio were
    rational.  No amount of fuel lets the call of the embedding return
    on this engine; an engine that computes in [double] rounds, and
    need not behave so. *)
Lemma square_L_never_returns :
  area square_L == 3 /\
  getNumPoints (getExteriorRing square_L) = 7%Z /\
  forall fuel (st : state shape),
    fst (split_polygons fuel st (Some square_L) 6) = OutOfFuel.
Proof.
  split; [reflexivity|]. split; [reflexivity|]. intros fuel st.
  pose proof (split_polygons_never_returns symmetric_L 6
                symmetric_L_bad fuel square_L st square_L_symmetric) as H1.
  pose proof (split_polygons_no_null_deref 6 buffer_returns
                fuel (Some square_L) st) as H2.
  by destruct (fst (split_polygons fuel st (Some square_L) 6)).
Qed.

Lemma pieces_within_threshold_witness :
  IsEmpty long_L = false /\
  getGeometryType long_L = wkbPolygon /\
  oversized long_L 6 /\
  exists added : list shape,
    pieces (snd (split_polygons 2 empty_state (Some long_L) 6)) =
      pieces empty_state ++ added /\
    Forall (fun piece => (getNumPoints (getExteriorRing piece) <= 6)%Z) added.
Proof.
  split; [reflexivity|]. split; [reflexivity|]. split; [reflexivity|].
  apply (pieces_within_threshold (GE := engine) (fun p => eq_refl) 2 empty_state long_L 6);
    reflexivity.
Defined.

Lemma small_polygon_cloned_witness :
  IsEmpty unit_square = false /\
  getGeometryType unit_square = wkbPolygon /\
  (getNumPoints (getExteriorRing unit_square) <= 5)%Z /\
  split_polygons 1 empty_state (Some unit_square) 5 =
    (Returned, mkState [unit_square] []) /\
  splits (Some unit_square) 5 (mkState [unit_square] []) /\
  getExteriorRing (clone unit_square) = getExteriorRing unit_square.
Proof.
  split; [reflexivity|]. split; [reflexivity|].
  split; [by vm_compute|].
  apply (small_polygon_cloned (GE := engine) (fun p => eq_refl) 0 empty_state unit_square 5);
    [reflexivity | reflexivity | by vm_compute].
Defined.

Lemma multipolygon_concatenation_witness :
  let multi := Multi [unit_square; long_L] in
  let leaves := Multi [unit_square; NoShape; Point 1 2; Rect 0 0 2 2] in
  IsEmpty multi = false /\
  getGeometryType multi = wkbMultiPolygon /\
  members multi = [Some unit_square; Some long_L] /\
  splits (Some unit_square) 6 (mkState [unit_square] []) /\
  splits (Some long_L) 6
    (mkState [Rect 0 0 3 (3 # 2); Rect 0 (3 # 2) 3 4; Rect 3 0 9 1] []) /\
  splits (Some multi) 6
    (mkState [unit_square;
              Rect 0 0 3 (3 # 2); Rect 0 (3 # 2) 3 4; Rect 3 0 9 1] []) /\
  split_polygons 3 empty_state (Some multi) 6 =
    (Returned,
     mkState [unit_square;
              Rect 0 0 3 (3 # 2); Rect 0 (3 # 2) 3 4; Rect 3 0 9 1] []) /\
  forallb (is_leaf 6) (members leaves) = true /\
  split_polygons 2 empty_state (Some leaves) 6 =
    (Returned, mkState [unit_square; Rect 0 0 2 2] []).
Proof.
  intros multi leaves.
  destruct (multipolygon_concatenation (GE := engine) multi 6 eq_refl eq_refl)
    as (Hmembers & Hjoin & _).
  destruct (multipolygon_concatenation (GE := engine) leaves 6 eq_refl eq_refl)
    as (_ & _ & Hleaves).
  assert (Hsquare : splits (Some unit_square) 6 (mkState [unit_square] []))
    by (exists 1%nat; reflexivity).
  assert (Hlong : splits (Some long_L) 6
            (mkState [Rect 0 0 3 (3 # 2); Rect 0 (3 # 2) 3 4; Rect 3 0 9 1] []))
    by (exists 2%nat; reflexivity).
  split; [reflexivity|]. split; [reflexivity|]. split; [reflexivity|].
  split; [exact Hsquare|]. split; [exact Hlong|]. split; [|split; [|split]].
  - apply Hjoin.
    exists [mkState [unit_square] [];
            mkState [Rect 0 0 3 (3 # 2); Rect 0 (3 # 2) 3 4; Rect 3 0 9 1] []].
    split; [|reflexivity].
    constructor; [exact Hsquare|]. constructor; [exact Hlong|]. constructor.
  - rewrite (Hmembers 2%nat empty_state). reflexivity.
  - reflexivity.
  - exact (Hleaves eq_refl 0%nat empty_state).
Defined.

Lemma null_empty_other_no_pieces_witness :
  split_polygons 1 empty_state None 6 =
    (Returned, mkState (Geometry := shape) [] [null_warning]) /\
  split_polygons 1 empty_state (Some NoShape) 6 = (Returned, empty_state) /\
  split_polygons 1 empty_state (Some (Point 1 2)) 6 = (Returned, empty_state).
Proof.
  destruct (null_empty_other_no_pieces (GE := engine) 0 empty_state 6)
    as (Hnull & Hempty & Hother).
  split; [exact Hnull|]. split.
  - apply Hempty. reflexivity.
  - apply Hother; discriminate.
Defined.

Lemma oversized_polygon_quadrants_witness :
  IsEmpty long_L = false /\
  getGeometryType long_L = wkbPolygon /\
  oversized long_L 6 /\
  tidy long_L = Some long_L /\
  Centroid long_L = mkPoint 3 (3 # 2) /\
  quadrants long_L =
    [ Intersection (rectangle 0 0 3 (3 # 2)) long_L;
      Intersection (rectangle 0 (3 # 2) 3 4) long_L;
      Intersection (rectangle 3 0 9 (3 # 2)) long_L;
      Intersection (rectangle 3 (3 # 2) 9 4) long_L ] /\
  quadrants long_L =
    [ Some (Rect 0 0 3 (3 # 2)); Some (Rect 0 (3 # 2) 3 4);
      Some (Rect 3 0 9 1); Some NoShape ] /\
  (forall fuel st,
      split_polygons (S fuel) st (Some long_L) 6 =
      run_all fuel 6 (quadrants long_L) st) /\
  splits (Some long_L) 6
    (mkState [Rect 0 0 3 (3 # 2); Rect 0 (3 # 2) 3 4; Rect 3 0 9 1] []) /\
  forallb (is_leaf 6) (quadrants long_L) = true /\
  split_polygons 2 empty_state (Some long_L) 6 =
    (Returned,
     mkState [Rect 0 0 3 (3 # 2); Rect 0 (3 # 2) 3 4; Rect 3 0 9 1] []).
Proof.
  destruct (oversized_polygon_quadrants (GE := engine) long_L long_L 6
              eq_refl eq_refl eq_refl eq_refl)
    as (Hmasks & Hcalls & Hjoin & Hleaves).
  split; [reflexivity|]. split; [reflexivity|]. split; [reflexivity|].
  split; [reflexivity|]. split; [reflexivity|].
  split; [exact Hmasks|]. split; [reflexivity|]. split; [exact Hcalls|].
  split; [|split].
  - apply Hjoin.
    exists [mkState [Rect 0 0 3 (3 # 2)] []; mkState [Rect 0 (3 # 2) 3 4] [];
            mkState [Rect 3 0 9 1] []; mkState [] []].
    split; [|reflexivity].
    repeat constructor; exists 1%nat; reflexivity.
  - reflexivity.
  - exact (Hleaves eq_refl 0%nat empty_state).
Defined.

Lemma invalid_polygon_repaired_witness :
  IsEmpty flat_L = false /\
  getGeometryType flat_L = wkbPolygon /\
  oversized flat_L 6 /\
  IsValid flat_L = false /\
  Buffer flat_L zero = Some (Rect 0 0 2 2) /\
  (forall fuel st,
      split_polygons (S fuel) st (Some flat_L) 6 =
      run_all fuel 6
        [ Intersection (rectangle 0 0 1 1) (Rect 0 0 2 2);
          Intersection (rectangle 0 1 1 2) (Rect 0 0 2 2);
          Intersection (rectangle 1 0 2 1) (Rect 0 0 2 2);
          Intersection (rectangle 1 1 2 2) (Rect 0 0 2 2) ] st) /\
  split_polygons 2 empty_state (Some flat_L) 6 =
    (Returned,
     mkState [Rect 0 0 1 1; Rect 0 1 1 2; Rect 1 0 2 1; Rect 1 1 2 2] []).
Proof.
  split; [reflexivity|]. split; [reflexivity|]. split; [reflexivity|].
  split; [reflexivity|]. split; [reflexivity|]. split; [|reflexivity].
  exact (invalid_polygon_repaired (GE := engine) flat_L (Rect 0 0 2 2) 6
           eq_refl eq_refl eq_refl (or_introl eq_refl) eq_refl).
Defined.

End RectilinearFacts.

(** ** The engine of fixed precision meets the contract *)

Module GridFacts.
Import Grid.















(** *** Areas on the grid *)







End GridFacts.

(** ** The areas of the pieces, on both engines *)

Module AreaExamples.
Import Rectilinear Grid.

End AreaExamples.

(** ** The threshold that reaches [split_polygons] *)

Section MainFacts.
Context {R Geometry : Type} {GE : GeometryEngine R Geometry}.
Variable atoi : string -> Z.
Variable show_int : Z -> string.

Implicit Types (p : process Geometry) (w : OGRWorld Geometry) (o : options).

Lemma write_pieces_calls w dest_layer id pcs :
  forall n p,
    p_calls (snd (snd (write_pieces w dest_layer id pcs n p))) = p_calls p.
Proof.
  induction pcs as [|piece rest IH]; intros n p; simpl; [done|].
  unfold write_feature.
  destruct dest_layer; simpl; [|done].
  destruct (feature_created w (length (p_written p))); simpl; [|done].
  by rewrite IH.
Qed.

(** Every call made by the feature loop passes [max_vertices]. *)
Lemma read_features_calls (Q : option Geometry * Z -> Prop)
    fuel w o id_field total dest_layer todo :
  (forall geometry, Q (geometry, max_vertices o)) ->
  forall features_read features_written p,
    Forall Q (p_calls p) ->
    Forall Q
      (p_calls (snd (read_features show_int fuel w o id_field total
                       dest_layer todo features_read features_written p))).
Proof.
  intros HQ. induction todo as [|feature rest IH]; intros n m p Hp;
    cbn [read_features]; [done|].
  assert (Hp' : Forall Q (p_calls p ++
                   [(GetGeometryRef feature, max_vertices o)])).
  { apply Forall_app. split; [done|]. constructor; [apply HQ|constructor]. }
  destruct (split_polygons fuel _ (GetGeometryRef feature) (max_vertices o))
    as [[] st]; cbn [snd p_calls]; try done.
  match goal with
  | |- context [write_pieces w dest_layer ?id (pieces st) m ?p0] =>
      pose proof (write_pieces_calls w dest_layer id (pieces st) m p0) as E;
      destruct (write_pieces w dest_layer id (pieces st) m p0)
        as [[stop|] [m1 p1]]
  end; cbn [snd p_calls] in *.
  - by rewrite E.
  - apply IH. destruct (debug o); cbn [say p_calls]; by rewrite E.
Qed.

Lemma run_calls (Q : option Geometry * Z -> Prop)
    fuel w o source_name dest_name p :
  (forall geometry, Q (geometry, max_vertices o)) ->
  Forall Q (p_calls p) ->
  Forall Q
    (p_calls (snd (run show_int fuel w o source_name dest_name p))).
Proof.
  intros HQ Hp. unfold run.
  destruct (open_source w source_name) as [source|]; [|done].
  destruct (match src_layer_name o with
            | Some name => GetLayerByName source name
            | None => GetLayer0 source
            end) as [srcLayer|]; [|done].
  destruct (match id_field_name o with
            | Some name => _
            | None => _
            end) as [msg|id_field]; [done|].
  destruct (create_destination w (driver_name o) dest_name
              (dest_layer_name o) (id_field_name o) p) as [[] p1] eqn:E.
  - apply read_features_calls; [done|].
    revert E. unfold create_destination.
    repeat (match goal with
            | |- context [if ?b then _ else _] => destruct b
            end; try discriminate).
    by intros [= <-].
  - revert E. unfold create_destination.
    repeat (match goal with
            | |- context [if ?b then _ else _] => destruct b
            end; try (intros [= <-]; done)).
Qed.

(** C9: whenever the option loop leaves [max_vertices] at 5 or less,
    [main] takes the [usage] path: it writes the usage text, exits
    with status 1, and has opened nothing, written nothing and not
    called [split_polygons].  In every run, the threshold of every
    call of [split_polygons] that [main] makes is greater than 5. *)
Theorem main_rejects_small_threshold
    fuel (answers : list (ascii * string)) (args : list string) w :
  (forall o,
      parse_options atoi initial_options answers = Some o ->
      max_vertices o <= 5 ->
      main atoi show_int fuel answers args w =
        (Exited 1, mkProcess [usage_text] [] [])) /\
  Forall (fun call => 5 < snd call)
    (p_calls (snd (main atoi show_int fuel answers args w))).
Proof.
  split.
  - intros o Ho Hle. unfold main. rewrite Ho.
    replace (max_vertices o <=? 5) with true
      by (symmetry; by apply Z.leb_le).
    by rewrite orb_true_r.
  - unfold main.
    destruct (parse_options atoi initial_options answers) as [o|];
      [|by constructor].
    destruct (Z.of_nat (length args) <? 2); [by constructor|].
    destruct (max_vertices o <=? 5) eqn:Hle; [by constructor|].
    apply Z.leb_gt in Hle. simpl.
    apply run_calls; [|by constructor].
    intros geometry. simpl. lia.
Qed.
End MainFacts.

Module MainExamples.
Import Rectilinear.

Lemma main_rejects_small_threshold_witness :
  parse_options atoi_decimal initial_options [("m"%char, "5"%string)] =
    Some (mkOptions None None OUTPUTDRIVER None 5 false) /\
  session "5" = (Exited 1, mkProcess [usage_text] [] []) /\
  Forall (fun call => 5 < snd call) (p_calls (snd (session "6"))).
Proof.
  split; [reflexivity|].
  pose proof (main_rejects_small_threshold (GE := engine) atoi_decimal
                pretty 3 [("m"%char, "5"%string)]
                ["in.shp"; "out.shp"]%string small_world) as [H5 _].
  pose proof (main_rejects_small_threshold (GE := engine) atoi_decimal
                pretty 3 [("m"%char, "6"%string)]
                ["in.shp"; "out.shp"]%string small_world) as [_ H6].
  split; [|exact H6].
  apply (H5 (mkOptions None None OUTPUTDRIVER None 5 false));
    [reflexivity | by vm_compute].
Defined.

(** With the threshold 6 the same command line is accepted: the two
    features are read, [long_L] is written as three rectangles under
    its feature id, and the feature without geometry gives the
    warning and no piece. *)
Example session_6 :
  session "6" =
    (Exited 0,
     mkProcess
       [null_warning;
        ("2 features read, 3 written." ++ newline)%string]
       [(7, Rect 0 0 3 (3 # 2)); (7, Rect 0 (3 # 2) 3 4); (7, Rect 3 0 9 1)]
       [(Some long_L, 6); (None, 6)]).
Proof. reflexivity. Qed.
End MainExamples.

(** ** Further properties of [split_polygons] *)

Section SplitterMore.
Context {R Geometry : Type} {GE : GeometryEngine R Geometry}.

Implicit Types (st d : state Geometry) (P multi : Geometry) (T : Z).

(** Whatever holds of the state and is kept by the two writes of the
    source, the warning of line 47 and the [push_back] of line 67, holds
    at every point of a run. *)
Lemma split_polygons_invariant (Inv : state Geometry -> Prop) T :
  (forall st, Inv st -> Inv (write_cerr null_warning st)) ->
  (forall st P,
      Inv st -> IsEmpty P = false -> getGeometryType P = wkbPolygon ->
      getNumPoints (getExteriorRing P) <= T ->
      Inv (push_back (clone P) st)) ->
  forall fuel st geometry,
    Inv st -> Inv (snd (split_polygons fuel st geometry T)).
Proof.
  intros Hwarn Hpush. induction fuel as [|fuel IH]; intros st geometry Hst;
    cbn [split_polygons]; [done|].
  destruct geometry as [g|]; [|by apply Hwarn].
  destruct (IsEmpty g) eqn:He; [done|].
  destruct (wkb_eqb (getGeometryType g) wkbMultiPolygon).
  { apply (for_loop_preserves Inv); [|done]. intros i s Hs. by apply IH. }
  destruct (wkb_eqb (getGeometryType g) wkbPolygon) eqn:Hp; [|done].
  cbn [negb]. apply wkb_eqb_eq in Hp.
  destruct (getNumPoints (getExteriorRing g) <=? T) eqn:Hle.
  { apply Hpush; try done. by apply Z.leb_le. }
  destruct (tidy g) as [p|]; [|done].
  apply (for_loop_preserves Inv); [|done]. intros i s Hs. by apply IH.
Qed.

Lemma pieces_of_emitted fuel geometry T :
  Forall (emitted T) (pieces_of fuel geometry T).
Proof.
  apply (split_polygons_invariant (fun s => Forall (emitted T) (pieces s)) T);
    [done| |constructor].
  intros s P Hs He Ht Hn. cbn [push_back pieces]. apply Forall_app.
  split; [done|]. constructor; [|constructor]. by exists P.
Qed.

Lemma cerr_of_warnings fuel geometry T :
  Forall (fun line => line = null_warning)
    (cerr (snd (split_polygons fuel empty_state geometry T))).
Proof.
  apply (split_polygons_invariant
           (fun s => Forall (fun line => line = null_warning) (cerr s)) T);
    [|done|constructor].
  intros s Hs. cbn [write_cerr cerr]. apply Forall_app.
  split; [done|]. by constructor.
Qed.

(** X1: what a call of [split_polygons] adds does not depend on what
    the accumulator and [cerr] held before: the call on any state ends
    the way the call on the empty state ends, with the prior state
    followed by what the call on the empty state produced. *)
Theorem split_polygons_accumulator_independent fuel st geometry T :
  split_polygons fuel st geometry T =
  (fst (split_polygons fuel empty_state geometry T),
   extend st (snd (split_polygons fuel empty_state geometry T))).
Proof. apply (split_polygons_framed fuel geometry T st). Qed.

(** X2: every piece that [split_polygons] pushes, for any input and at
    any point of a run, is what [clone] returned for a non-empty
    geometry of type [wkbPolygon] whose exterior ring has at most [T]
    points: the [push_back] of line 67 is the only one. *)
Theorem pieces_are_clones_of_small_polygons fuel st geometry T :
  exists added : list Geometry,
    pieces (snd (split_polygons fuel st geometry T)) = pieces st ++ added /\
    Forall (emitted T) added.
Proof.
  rewrite split_polygons_added.
  exists (pieces (snd (split_polygons fuel empty_state geometry T))).
  split; [done|]. apply pieces_of_emitted.
Qed.

(** X3: the only text that [split_polygons] writes to [cerr] is the
    warning about a [NULL] geometry: every line a run adds is that
    warning. *)
Theorem only_null_warnings_written fuel st geometry T :
  exists written : list string,
    cerr (snd (split_polygons fuel st geometry T)) = cerr st ++ written /\
    Forall (fun line => line = null_warning) written.
Proof.
  rewrite split_polygons_added.
  exists (cerr (snd (split_polygons fuel empty_state geometry T))).
  split; [done|]. apply cerr_of_warnings.
Qed.

(** X4: a run can stop on a [NULL] pointer only through the result of
    [Buffer(0)], which line 78 dereferences without a test: when
    [Buffer] returns an object for every polygon that is not valid or
    not simple, no run of [split_polygons] stops that way, whatever the
    other operations of the engine return ([NULL] from [Intersection]
    or [getGeometryRef] included). *)
Theorem null_dereference_only_after_buffer T :
  (forall g : Geometry, tidy g <> None) ->
  forall fuel geometry st,
    fst (split_polygons fuel st geometry T) <> NullDeref.
Proof.
  intros Htidy fuel.
  induction fuel as [|fuel IH]; intros geometry st; [done|].
  destruct geometry as [g|]; [|done].
  destruct (IsEmpty g) eqn:He; [by cbn [split_polygons]; rewrite He|].
  destruct (wkb_eqb (getGeometryType g) wkbMultiPolygon) eqn:Hm.
  { apply wkb_eqb_eq in Hm. rewrite split_polygons_multi by done.
    apply run_all_no_null_deref, List.Forall_forall. intros; apply IH. }
  destruct (wkb_eqb (getGeometryType g) wkbPolygon) eqn:Hp.
  2:{ cbn [split_polygons]. by rewrite He, Hm, Hp. }
  apply wkb_eqb_eq in Hp.
  destruct (Z_le_gt_dec (getNumPoints (getExteriorRing g)) T) as [Hs|Ho].
  { by rewrite split_polygons_small. }
  assert (Ho' : oversized g T) by (unfold oversized; lia).
  destruct (tidy g) as [P'|] eqn:Hb; [|by destruct (Htidy g)].
  rewrite (split_polygons_oversized fuel st g P' T) by done.
  apply run_all_no_null_deref, List.Forall_forall. intros; apply IH.
Qed.

(** X5: a non-empty multipolygon all of whose members are leaves
    ([NULL], empty, of another type, or polygons within the threshold)
    is flattened in one level: the call returns with the clones of its
    non-empty polygon members, in index order, and one warning for each
    [NULL] member. *)
Theorem multipolygon_of_leaves multi T fuel st :
  IsEmpty multi = false ->
  getGeometryType multi = wkbMultiPolygon ->
  forallb (is_leaf T) (members multi) = true ->
  split_polygons (S (S fuel)) st (Some multi) T =
  (Returned, extend st (join (map (shallow T) (members multi)))).
Proof.
  intros He Ht Hl. rewrite split_polygons_multi by done.
  by apply run_all_leaves.
Qed.

(** X6: a non-empty oversized polygon whose four quadrant
    intersections are leaves is split in one level: the call returns
    with the clones of the quadrant intersections that are non-empty
    polygons, in the order of the quadrants, and one warning for each
    intersection that is [NULL].  The vertex count is not tested again
    after [Buffer(0)]: a repaired polygon is cut in four even when it is
    within the threshold. *)
Theorem oversized_polygon_of_leaves P P' T fuel st :
  IsEmpty P = false ->
  getGeometryType P = wkbPolygon ->
  oversized P T ->
  tidy P = Some P' ->
  forallb (is_leaf T) (quadrants P') = true ->
  split_polygons (S (S fuel)) st (Some P) T =
  (Returned, extend st (join (map (shallow T) (quadrants P')))).
Proof.
  intros He Ht Ho Hb Hl.
  rewrite (split_polygons_oversized (S fuel) st P P' T) by done.
  by apply run_all_leaves.
Qed.

(** X7: with an engine whose [clone] keeps emptiness, type and exterior
    ring, the output is stable: [split_polygons] called again, with the
    same threshold, on any piece it has pushed returns exactly one
    piece, the clone of that piece. *)
Theorem pieces_split_to_themselves
    (clone_empty : forall p : Geometry, IsEmpty (clone p) = IsEmpty p)
    (clone_type : forall p : Geometry,
        getGeometryType (clone p) = getGeometryType p)
    (clone_ring : forall p : Geometry,
        getExteriorRing (clone p) = getExteriorRing p)
    fuel geometry T piece :
  In piece (pieces_of fuel geometry T) ->
  forall fuel' st,
    split_polygons (S fuel') st (Some piece) T =
    (Returned, mkState (pieces st ++ [clone piece]) (cerr st)).
Proof.
  intros Hin fuel' st.
  pose proof (pieces_of_emitted fuel geometry T) as Hall.
  rewrite List.Forall_forall in Hall.
  destruct (Hall piece Hin) as (q & -> & He & Ht & Hn).
  apply split_polygons_small.
  - by rewrite clone_empty.
  - by rewrite clone_type.
  - by rewrite clone_ring.
Qed.
End SplitterMore.

(** ** Further properties of the command line program *)

Section MainMore.
Context {R Geometry : Type} {GE : GeometryEngine R Geometry}.
Variable atoi : string -> Z.
Variable show_int : Z -> string.

Implicit Types (p : process Geometry) (w : OGRWorld Geometry) (o : options).

Ltac split_on_letter c :=
  destruct (Ascii.eqb_spec c "i") as [-> | ?];
  [|destruct (Ascii.eqb_spec c "o") as [-> | ?];
    [|destruct (Ascii.eqb_spec c "f") as [-> | ?];
      [|destruct (Ascii.eqb_spec c "n") as [-> | ?];
        [|destruct (Ascii.eqb_spec c "m") as [-> | ?];
          [|destruct (Ascii.eqb_spec c "v") as [-> | ?]]]]]].

Lemma set_option_known o c s :
  set_option atoi o (c, s) = None <-> known_option c = false.
Proof.
  unfold set_option, known_option. split_on_letter c; cbn; split; congruence.
Qed.

Lemma parse_options_values o0 answers o :
  parse_options atoi o0 answers = Some o ->
  src_layer_name o =
    match last_option "i" answers with
    | Some s => Some s | None => src_layer_name o0 end /\
  dest_layer_name o =
    match last_option "o" answers with
    | Some s => Some s | None => dest_layer_name o0 end /\
  driver_name o =
    match last_option "f" answers with
    | Some s => s | None => driver_name o0 end /\
  id_field_name o =
    match last_option "n" answers with
    | Some s => Some s | None => id_field_name o0 end /\
  max_vertices o =
    match last_option "m" answers with
    | Some s => atoi s | None => max_vertices o0 end /\
  debug o =
    match last_option "v" answers with
    | Some _ => true | None => debug o0 end.
Proof.
  revert o0. induction answers as [|[c s] rest IH]; intros o0.
  - intros [= <-]. done.
  - cbn [parse_options last_option fst snd].
    destruct (set_option atoi o0 (c, s)) as [o1|] eqn:E; [|done].
    intros H. apply IH in H as (Hi & Ho & Hf & Hn & Hm & Hv).
    rewrite Hi, Ho, Hf, Hn, Hm, Hv. clear Hi Ho Hf Hn Hm Hv IH.
    revert E. unfold set_option.
    split_on_letter c; cbn; try discriminate; intros [= <-]; cbn;
      repeat split;
      repeat match goal with
      | |- context [last_option ?l rest] => destruct (last_option l rest)
      end; reflexivity.
Qed.

(** X8: when the option loop does not end in [usage], every option has
    the value given by its last occurrence on the command line, and the
    value it had before the loop when it does not occur: the threshold
    is [atoi] of the last [-m] argument, 250 without [-m]; [debug] is
    set as soon as [-v] occurs once. *)
Theorem options_take_last_occurrence o0 answers o :
  parse_options atoi o0 answers = Some o ->
  src_layer_name o =
    match last_option "i" answers with
    | Some s => Some s | None => src_layer_name o0 end /\
  dest_layer_name o =
    match last_option "o" answers with
    | Some s => Some s | None => dest_layer_name o0 end /\
  driver_name o =
    match last_option "f" answers with
    | Some s => s | None => driver_name o0 end /\
  id_field_name o =
    match last_option "n" answers with
    | Some s => Some s | None => id_field_name o0 end /\
  max_vertices o =
    match last_option "m" answers with
    | Some s => atoi s | None => max_vertices o0 end /\
  debug o =
    match last_option "v" answers with
    | Some _ => true | None => debug o0 end.
Proof. apply parse_options_values. Qed.

Lemma parse_options_none o answers :
  parse_options atoi o answers = None <->
  existsb (fun answer => negb (known_option (fst answer))) answers = true.
Proof.
  revert o. induction answers as [|[c s] rest IH]; intros o.
  - cbn. split; discriminate.
  - cbn [parse_options existsb fst].
    destruct (set_option atoi o (c, s)) as [o1|] eqn:E.
    + assert (Hk : known_option c = true).
      { destruct (known_option c) eqn:Hk; [done|].
        pose proof (proj2 (set_option_known o c s) Hk). congruence. }
      rewrite Hk. cbn. apply IH.
    + apply (set_option_known o c s) in E. rewrite E. cbn. done.
Qed.

(** X9: a command line with an option letter that the program does not
    know, wherever it occurs, or with fewer than two file names is
    rejected: [main] writes the usage text and exits with status 1
    without opening or writing anything.  The option loop ends in
    [usage] exactly when some letter is unknown. *)
Theorem unknown_option_or_missing_argument fuel answers args w :
  (parse_options atoi initial_options answers = None <->
   existsb (fun answer => negb (known_option (fst answer))) answers = true) /\
  (existsb (fun answer => negb (known_option (fst answer))) answers = true \/
   (length args < 2)%nat ->
   main atoi show_int fuel answers args w =
     (Exited 1, mkProcess [usage_text] [] [])).
Proof.
  split; [apply parse_options_none|].
  intros [Hbad | Hargs]; unfold main.
  - apply (parse_options_none initial_options answers) in Hbad.
    by rewrite Hbad.
  - destruct (parse_options atoi initial_options answers); [|done].
    replace (Z.of_nat (length args) <? 2) with true; [done|].
    symmetry. apply Z.ltb_lt. lia.
Qed.

(** X10: options with different letters can be given in either order:
    swapping two neighbouring answers of [getopt] whose letters differ
    changes neither whether the loop ends in [usage] nor the values it
    leaves. *)
Theorem options_commute o a b rest :
  fst a <> fst b ->
  parse_options atoi o (a :: b :: rest) =
  parse_options atoi o (b :: a :: rest).
Proof.
  destruct a as [c s], b as [c' s']. cbn [fst]. intros Hne.
  cbn [parse_options]. unfold set_option.
  split_on_letter c; split_on_letter c'; cbn; congruence.
Qed.

(** X11: [create_destination] returns a data source exactly when the
    driver is found, the file, the layer and the id field are created,
    the field under the name ["id"] when no name is given; it is then
    silent.  Otherwise it returns [NULL] after writing exactly one
    line. *)
Theorem create_destination_outcome w drivername filename layername
    id_field_name p :
  let field := match id_field_name with None => IDFIELD | Some n => n end in
  let ok := driver_found w drivername && file_created w drivername filename &&
            layer_created w layername && field_created w field in
  fst (create_destination w drivername filename layername id_field_name p) = ok /\
  (if ok
   then snd (create_destination w drivername filename layername
               id_field_name p) = p
   else exists msg,
       snd (create_destination w drivername filename layername
              id_field_name p) = say msg p).
Proof.
  unfold create_destination.
  destruct (driver_found w drivername); cbn; [|eauto].
  destruct (file_created w drivername filename); cbn; [|eauto].
  destruct (layer_created w layername); cbn; [|eauto].
  destruct (field_created w _); cbn; eauto.
Qed.

Lemma to_int_range z : - 2 ^ 31 <= to_int z < 2 ^ 31.
Proof.
  unfold to_int.
  pose proof (Z.mod_pos_bound (z + 2 ^ 31) (2 ^ 32) ltac:(lia)). lia.
Qed.

Lemma to_int_small z : - 2 ^ 31 <= z < 2 ^ 31 -> to_int z = z.
Proof. intros H. unfold to_int. rewrite Z.mod_small; lia. Qed.

Lemma to_int_add a b : to_int (to_int a + b) = to_int (a + b).
Proof.
  unfold to_int. f_equal.
  replace ((a + 2 ^ 31) mod 2 ^ 32 - 2 ^ 31 + b + 2 ^ 31)
    with ((a + 2 ^ 31) mod 2 ^ 32 + b) by lia.
  rewrite Z.add_mod_idemp_l by lia. f_equal. lia.
Qed.

Lemma write_pieces_outcome w dest_layer id pcs :
  forall features_written p,
    - 2 ^ 31 <= features_written < 2 ^ 31 ->
    let r := write_pieces w dest_layer id pcs features_written p in
    exists k : nat,
      (k <= length pcs)%nat /\
      p_written (snd (snd r)) = p_written p ++ map (pair id) (take k pcs) /\
      fst (snd r) = to_int (features_written + Z.of_nat k) /\
      p_calls (snd (snd r)) = p_calls p /\
      ((fst r = None /\ k = length pcs /\ p_cerr (snd (snd r)) = p_cerr p) \/
       (fst r = Some (Exited 1) /\ (k < length pcs)%nat /\
        feature_created w (length (p_written p) + k) = false /\
        p_cerr (snd (snd r)) =
          p_cerr p ++ [("Failed to create feature in output." ++ newline)%string]) \/
       (fst r = Some Crashed /\ dest_layer = false /\ k = 0%nat /\
        pcs <> [] /\ p_cerr (snd (snd r)) = p_cerr p)).
Proof.
  induction pcs as [|piece rest IH]; intros m p Hm0 r; subst r.
  - exists 0%nat. cbn [write_pieces length take map fst snd Z.of_nat].
    rewrite app_nil_r, Z.add_0_r, to_int_small by done. eauto 10.
  - cbn [write_pieces]. unfold write_feature.
    destruct dest_layer; cbn [negb].
    2:{ exists 0%nat. cbn [length take map fst snd Z.of_nat].
        rewrite app_nil_r, Z.add_0_r, to_int_small by done.
        repeat split; try (cbn; lia). right. right. done. }
    destruct (feature_created w (length (p_written p))) eqn:Hc; cbn [negb].
    2:{ exists 0%nat. cbn [length take map fst snd Z.of_nat say p_written p_cerr
                            p_calls].
        rewrite app_nil_r, Z.add_0_r, Nat.add_0_r, to_int_small by done.
        repeat split; try done; try (cbn; lia).
        right. left. repeat split; try done. cbn. lia. }
    destruct (IH (to_int (m + 1))
                (mkProcess (p_cerr p) (p_written p ++ [(id, piece)]) (p_calls p))
                (to_int_range _))
      as (k & Hk & Hw & Hm & Hcalls & Hcases).
    exists (S k). cbn [length take map p_written p_cerr p_calls] in *.
    rewrite Hw, Hm, Hcalls, <- app_assoc, to_int_add. cbn [app].
    repeat split; try lia.
    { f_equal. lia. }
    rewrite length_app in Hcases. cbn [length] in Hcases.
    destruct Hcases as [(-> & -> & ->) | [(-> & ? & Hf & ->) | (-> & ? & ? & ? & ->)]].
    + left. done.
    + right. left. repeat split; try done; try lia.
      rewrite <- Hf. f_equal. lia.
    + done.
Qed.

(** X12: [write_pieces] creates the features of the pieces in order,
    under the id it is given, and counts each one in the [int]
    [features_written]: at every end the features created are a prefix
    of the pieces and the counter has grown by their number, wrapping
    around at [2 ^ 31] (so by exactly their number whenever the sum
    fits an [int]).  It stops at the first [CreateFeature] that fails,
    with the message and [exit(1)], keeping the features created
    before; a missing output layer is only dereferenced when there is a
    piece to write. *)
Theorem features_written_are_a_prefix w dest_layer id pcs features_written p :
  - 2 ^ 31 <= features_written < 2 ^ 31 ->
  let r := write_pieces w dest_layer id pcs features_written p in
  exists k : nat,
    (k <= length pcs)%nat /\
    p_written (snd (snd r)) = p_written p ++ map (pair id) (take k pcs) /\
    fst (snd r) = to_int (features_written + Z.of_nat k) /\
    (features_written + Z.of_nat k < 2 ^ 31 ->
     fst (snd r) = features_written + Z.of_nat k) /\
    p_calls (snd (snd r)) = p_calls p /\
    ((fst r = None /\ k = length pcs /\ p_cerr (snd (snd r)) = p_cerr p) \/
     (fst r = Some (Exited 1) /\ (k < length pcs)%nat /\
      feature_created w (length (p_written p) + k) = false /\
      p_cerr (snd (snd r)) =
        p_cerr p ++ [("Failed to create feature in output." ++ newline)%string]) \/
     (fst r = Some Crashed /\ dest_layer = false /\ k = 0%nat /\
      pcs <> [] /\ p_cerr (snd (snd r)) = p_cerr p)).
Proof.
  intros Hrange r.
  destruct (write_pieces_outcome w dest_layer id pcs features_written p Hrange)
    as (k & Hk & Hw & Hm & Hcalls & Hcases).
  exists k. repeat split; try done.
  intros Hfit. subst r. rewrite Hm. apply to_int_small. lia.
Qed.

Lemma create_destination_true w drivername filename layername id_field_name
    p p1 :
  create_destination w drivername filename layername id_field_name p =
    (true, p1) -> p1 = p.
Proof.
  unfold create_destination.
  repeat (match goal with
          | |- context [if ?b then _ else _] => destruct b
          end; try discriminate).
  by intros [= <-].
Qed.

Lemma create_destination_false w drivername filename layername id_field_name
    p p1 :
  create_destination w drivername filename layername id_field_name p =
    (false, p1) ->
  p_written p1 = p_written p /\ p_calls p1 = p_calls p.
Proof.
  unfold create_destination.
  repeat (match goal with
          | |- context [if ?b then _ else _] => destruct b
          end; try discriminate); by intros [= <-].
Qed.

Lemma read_features_exit_0 fuel w o id_field total dest_layer todo :
  forall features_read features_written p p',
    - 2 ^ 31 <= features_read < 2 ^ 31 ->
    - 2 ^ 31 <= features_written < 2 ^ 31 ->
    read_features show_int fuel w o id_field total dest_layer todo
      features_read features_written p = (Exited 0, p') ->
    p_written p' =
      p_written p ++ features_for fuel (max_vertices o) id_field todo /\
    p_calls p' =
      p_calls p ++
      map (fun feature => (GetGeometryRef feature, max_vertices o)) todo /\
    exists log,
      p_cerr p' =
        p_cerr p ++ log ++
        [summary_line show_int
           (to_int (features_read + Z.of_nat (length todo)))
           (to_int
              (features_written +
               Z.of_nat (length (features_for fuel (max_vertices o)
                                   id_field todo))))] /\
      (debug o = false -> Forall (fun line => line = null_warning) log).
Proof.
  induction todo as [|feature rest IH]; intros n m p p' Hn Hm0.
  - cbn. intros [= <-]. cbn. rewrite !app_nil_r, !Z.add_0_r.
    rewrite !to_int_small by done.
    split; [done|]. split; [done|]. exists []. split; [done|]. by constructor.
  - cbn [read_features].
    rewrite (split_polygons_framed fuel (GetGeometryRef feature)
               (max_vertices o) (mkState [] (p_cerr p))).
    pose proof (cerr_of_warnings fuel (GetGeometryRef feature) (max_vertices o))
      as Hwarn.
    fold (feature_id id_field feature).
    assert (Hpieces : pieces_of fuel (GetGeometryRef feature) (max_vertices o) =
                      pieces (snd (split_polygons fuel empty_state
                                     (GetGeometryRef feature) (max_vertices o))))
      by reflexivity.
    destruct (split_polygons fuel empty_state (GetGeometryRef feature)
                (max_vertices o)) as [[] d] eqn:E;
      cbn [fst snd extend pieces cerr app] in *; try discriminate.
    match goal with
    | |- context [write_pieces w dest_layer ?id ?pcs m ?p0] =>
        destruct (write_pieces_outcome w dest_layer id pcs m p0 Hm0)
          as (k & Hk & Hw & Hm & Hcalls & Hcases);
        destruct (write_pieces w dest_layer id pcs m p0) as [stop [m1 p1]]
    end.
    cbn [fst snd p_written p_cerr p_calls] in *.
    destruct Hcases as [(-> & -> & Hc) | [(-> & _) | (-> & _)]];
      try discriminate.
    intros H.
    apply IH in H as (Hwritten & Hcalled & log & Hlog & Hquiet);
      [|apply to_int_range|subst m1; apply to_int_range].
    rewrite firstn_all in Hw. subst m1.
    assert (Hp2 : p_calls
                    (if debug o
                     then say (show_int (to_int (n + 1)) ++ " / "
                               ++ show_int total ++ carriage_return)%string p1
                     else p1) = p_calls p1) by (by destruct (debug o)).
    rewrite Hp2, Hcalls in Hcalled.
    assert (Hp1 : p_written
                    (if debug o
                     then say (show_int (to_int (n + 1)) ++ " / "
                               ++ show_int total ++ carriage_return)%string p1
                     else p1) = p_written p1) by (by destruct (debug o)).
    rewrite Hp1, Hw in Hwritten.
    rewrite !to_int_add in Hlog.
    split; [|split].
    + rewrite Hwritten. cbn [features_for flat_map].
      by rewrite Hpieces, <- app_assoc.
    + rewrite Hcalled. cbn [map]. by rewrite <- app_assoc.
    + cbn [features_for flat_map length].
      rewrite length_app, length_map, Hpieces.
      fold (features_for fuel (max_vertices o) id_field rest).
      replace (n + Z.of_nat (S (length rest)))
        with (n + 1 + Z.of_nat (length rest)) by lia.
      replace (m + Z.of_nat
                     (length (pieces d) +
                      length (features_for fuel (max_vertices o) id_field rest)))
        with (m + Z.of_nat (length (pieces d)) +
              Z.of_nat (length (features_for fuel (max_vertices o)
                                  id_field rest))) by lia.
      destruct (debug o) eqn:Hd.
      * exists (cerr d ++
                [(show_int (to_int (n + 1)) ++ " / " ++ show_int total
                  ++ carriage_return)%string] ++ log).
        split; [|done].
        rewrite Hlog. cbn [say p_cerr]. rewrite Hc.
        by rewrite <- !app_assoc.
      * exists (cerr d ++ log). split.
        -- rewrite Hlog, Hc. by rewrite <- !app_assoc.
        -- intros _. apply Forall_app. split; [done|]. by apply Hquiet.
Qed.

Lemma main_exit_0 fuel answers args w p' :
  main atoi show_int fuel answers args w = (Exited 0, p') ->
  exists o srcLayer,
    parse_options atoi initial_options answers = Some o /\
    5 < max_vertices o /\
    source_layer w o (nth 0 args EmptyString) = Some srcLayer /\
    (forall name,
        id_field_name o = Some name -> 0 <= GetFieldIndex srcLayer name) /\
    read_features show_int fuel w o (id_field_index o srcLayer)
      (to_int (GetFeatureCount srcLayer))
      (dest_layer_found w (dest_layer_name o))
      (layer_features srcLayer) 0 0 (mkProcess [] [] []) = (Exited 0, p').
Proof.
  unfold main.
  destruct (parse_options atoi initial_options answers) as [o|];
    [|discriminate].
  destruct (Z.of_nat (length args) <? 2); [discriminate|].
  destruct (max_vertices o <=? 5) eqn:Hmv; [discriminate|].
  apply Z.leb_gt in Hmv. cbn [orb]. unfold run, source_layer, id_field_index.
  destruct (open_source w (nth 0 args EmptyString)) as [source|];
    [|discriminate].
  destruct (match src_layer_name o with
            | Some name => GetLayerByName source name
            | None => GetLayer0 source
            end) as [srcLayer|] eqn:Hlayer; [|discriminate].
  intros H. exists o, srcLayer.
  split; [done|]. split; [done|]. split; [done|].
  revert H.
  destruct (id_field_name o) as [name|].
  - destruct (GetFieldIndex srcLayer name <? 0) eqn:Hneg; [discriminate|].
    apply Z.ltb_ge in Hneg.
    destruct (negb (field_is_OFTInteger srcLayer (GetFieldIndex srcLayer name)));
      [discriminate|].
    destruct (create_destination w (driver_name o) (nth 1 args EmptyString)
                (dest_layer_name o) (Some name) (mkProcess [] [] []))
      as [[] p1] eqn:E; [|discriminate].
    apply create_destination_true in E. subst p1.
    intros H. split; [by intros ? [= <-]|done].
  - destruct (create_destination w (driver_name o) (nth 1 args EmptyString)
                (dest_layer_name o) None (mkProcess [] [] []))
      as [[] p1] eqn:E; [|discriminate].
    apply create_destination_true in E. subst p1.
    intros H. split; [done|done].
Qed.

(** X13: when [main] ends with status 0, the output layer holds, for
    each feature of the input layer in reading order, one feature per
    piece that [split_polygons] returned for its geometry, in the order
    of the pieces, each under the id of the input feature; nothing else
    is written and no piece is left out. *)
Theorem output_features_carry_input_ids fuel answers args w p' :
  main atoi show_int fuel answers args w = (Exited 0, p') ->
  exists o srcLayer,
    parse_options atoi initial_options answers = Some o /\
    source_layer w o (nth 0 args EmptyString) = Some srcLayer /\
    p_written p' =
      features_for fuel (max_vertices o) (id_field_index o srcLayer)
        (layer_features srcLayer).
Proof.
  intros H. apply main_exit_0 in H as (o & srcLayer & Ho & _ & Hl & _ & H).
  exists o, srcLayer. repeat split; try done.
  by apply read_features_exit_0 in H as (-> & _); [|lia..].
Qed.

(** X14: when [main] ends with status 0, the last line on [cerr] is
    the report.  Its two numbers are the number of features of the
    input layer and the number of features in the output layer as the
    [int] counters of lines 256-257 hold them, that is wrapped around
    at [2 ^ 31]: the report shows the very numbers whenever both are
    below [2 ^ 31].  Without [-v] the lines before the report are all
    warnings about [NULL] geometries. *)
Theorem final_report_counts fuel answers args w p' :
  main atoi show_int fuel answers args w = (Exited 0, p') ->
  exists o srcLayer log,
    parse_options atoi initial_options answers = Some o /\
    source_layer w o (nth 0 args EmptyString) = Some srcLayer /\
    p_cerr p' =
      log ++ [summary_line show_int
                (to_int (Z.of_nat (length (layer_features srcLayer))))
                (to_int (Z.of_nat (length (p_written p'))))] /\
    (Z.of_nat (length (layer_features srcLayer)) < 2 ^ 31 ->
     Z.of_nat (length (p_written p')) < 2 ^ 31 ->
     p_cerr p' =
       log ++ [summary_line show_int
                 (Z.of_nat (length (layer_features srcLayer)))
                 (Z.of_nat (length (p_written p')))]) /\
    (debug o = false -> Forall (fun line => line = null_warning) log).
Proof.
  intros H. apply main_exit_0 in H as (o & srcLayer & Ho & _ & Hl & _ & H).
  apply read_features_exit_0 in H as (Hw & _ & log & Hlog & Hquiet); [|lia..].
  exists o, srcLayer, log.
  assert (Hreport :
    p_cerr p' =
      log ++ [summary_line show_int
                (to_int (Z.of_nat (length (layer_features srcLayer))))
                (to_int (Z.of_nat (length (p_written p'))))])
    by (rewrite Hlog, Hw; reflexivity).
  repeat split; try done.
  intros Hread Hwritten. rewrite Hreport.
  rewrite !to_int_small by lia. reflexivity.
Qed.

(** X17: when [main] ends with status 0, [split_polygons] has been
    called exactly once for each feature of the input layer, in reading
    order, on the geometry of the feature ([NULL] when it has none),
    each time with the same threshold: [atoi] of the last [-m]
    argument, or 250 when [-m] was not given. *)
Theorem one_call_per_feature fuel answers args w p' :
  main atoi show_int fuel answers args w = (Exited 0, p') ->
  exists o srcLayer,
    parse_options atoi initial_options answers = Some o /\
    source_layer w o (nth 0 args EmptyString) = Some srcLayer /\
    p_calls p' =
      map (fun feature =>
             (GetGeometryRef feature,
              match last_option "m" answers with
              | Some s => atoi s
              | None => MAXVERTICES
              end))
          (layer_features srcLayer).
Proof.
  intros H. apply main_exit_0 in H as (o & srcLayer & Ho & _ & Hl & _ & H).
  exists o, srcLayer. repeat split; try done.
  apply read_features_exit_0 in H as (_ & -> & _); [|lia..].
  apply parse_options_values in Ho as (_ & _ & _ & _ & Hm & _).
  rewrite Hm. reflexivity.
Qed.

(** X15: [main] calls [split_polygons] or writes a feature only after
    the whole setup has succeeded: the data source opened, the input
    layer found, the field named by [-n] present and of integer type,
    and the destination created.  When any of these fails nothing has
    been split or written. *)
Theorem nothing_happens_before_setup fuel w o source_name dest_name p :
  p_calls (snd (run show_int fuel w o source_name dest_name p)) <> p_calls p \/
  p_written (snd (run show_int fuel w o source_name dest_name p)) <>
    p_written p ->
  exists srcLayer,
    source_layer w o source_name = Some srcLayer /\
    (forall name,
        id_field_name o = Some name ->
        0 <= GetFieldIndex srcLayer name /\
        field_is_OFTInteger srcLayer (GetFieldIndex srcLayer name) = true) /\
    fst (create_destination w (driver_name o) dest_name (dest_layer_name o)
           (id_field_name o) p) = true.
Proof.
  unfold run, source_layer.
  destruct (open_source w source_name) as [source|];
    [|cbn; intros [H | H]; done].
  destruct (match src_layer_name o with
            | Some name => GetLayerByName source name
            | None => GetLayer0 source
            end) as [srcLayer|] eqn:Hlayer; [|cbn; intros [H | H]; done].
  intros H. exists srcLayer. split; [done|].
  destruct (id_field_name o) as [name|].
  - destruct (GetFieldIndex srcLayer name <? 0) eqn:Hneg;
      [cbn in H; destruct H; done|].
    destruct (field_is_OFTInteger srcLayer (GetFieldIndex srcLayer name))
      eqn:Hint; [|cbn in H; destruct H; done].
    cbn [negb] in H. apply Z.ltb_ge in Hneg.
    split; [by intros ? [= <-]|].
    destruct (create_destination w (driver_name o) dest_name
                (dest_layer_name o) (Some name) p) as [[] p1] eqn:E; [done|].
    apply create_destination_false in E as [Hw Hc].
    cbn in H. destruct H; congruence.
  - split; [done|].
    destruct (create_destination w (driver_name o) dest_name
                (dest_layer_name o) None p) as [[] p1] eqn:E; [done|].
    apply create_destination_false in E as [Hw Hc].
    cbn in H. destruct H; congruence.
Qed.

(** X16: when [main] ends with status 0, every feature of the output
    layer holds a piece of the geometry of some feature of the input
    layer, under that feature's id: the value of the field named by
    [-n] when [-n] was given and the feature's FID otherwise, converted
    to the 32-bit [feature_id_t], hence unchanged whenever it fits 32
    bits. *)
Theorem pieces_written_under_feature_id fuel answers args w p' :
  main atoi show_int fuel answers args w = (Exited 0, p') ->
  exists o srcLayer,
    parse_options atoi initial_options answers = Some o /\
    source_layer w o (nth 0 args EmptyString) = Some srcLayer /\
    forall id piece,
      In (id, piece) (p_written p') ->
      exists feature,
        In feature (layer_features srcLayer) /\
        In piece (pieces_of fuel (GetGeometryRef feature) (max_vertices o)) /\
        let value :=
          match last_option "n" answers with
          | Some name =>
              GetFieldAsInteger feature (GetFieldIndex srcLayer name)
          | None => GetFID feature
          end in
        id = to_int value /\
        (- 2 ^ 31 <= value < 2 ^ 31 -> id = value).
Proof.
  intros H. apply main_exit_0 in H as (o & srcLayer & Ho & _ & Hl & Hfield & H).
  exists o, srcLayer. split; [done|]. split; [done|].
  apply read_features_exit_0 in H as (Hw & _); [|lia..].
  cbn [p_written app] in Hw. rewrite Hw.
  intros id piece Hin. unfold features_for in Hin.
  apply in_flat_map in Hin as (feature & Hfeature & Hin).
  apply in_map_iff in Hin as (piece' & [= <- <-] & Hpiece).
  exists feature. split; [done|]. split; [done|].
  apply parse_options_values in Ho as (_ & _ & _ & Hn & _).
  cbn [id_field_name initial_options] in Hn.
  assert (Hid : feature_id (id_field_index o srcLayer) feature =
                to_int match last_option "n" answers with
                       | Some name =>
                           GetFieldAsInteger feature (GetFieldIndex srcLayer name)
                       | None => GetFID feature
                       end).
  { unfold feature_id, id_field_index.
    destruct (last_option "n" answers) as [name|]; rewrite Hn.
    - specialize (Hfield name Hn).
      by replace (0 <=? GetFieldIndex srcLayer name) with true
        by (symmetry; by apply Z.leb_le).
    - reflexivity. }
  cbn zeta. split; [exact Hid|].
  intros Hfit. rewrite Hid. by apply to_int_small.
Qed.
End MainMore.

(** ** The further properties on concrete inputs *)

Module ExtraExamples.
Import Rectilinear.

Lemma null_dereference_only_after_buffer_witness :
  (forall g : shape, tidy g <> None) /\
  fst (split_polygons 2 empty_state (Some flat_L) 6) <> NullDeref.
Proof.
  assert (Htidy : forall g : shape, tidy g <> None).
  { intros g. unfold tidy.
    destruct (negb (IsValid g) || negb (IsSimple g)); [|discriminate].
    by destruct g. }
  split; [exact Htidy|].
  exact (null_dereference_only_after_buffer (GE := engine) 6 Htidy 2
           (Some flat_L) empty_state).
Defined.

Lemma multipolygon_of_leaves_witness :
  let multi := Multi [unit_square; NoShape; Point 1 2; Rect 0 0 2 2] in
  IsEmpty multi = false /\
  getGeometryType multi = wkbMultiPolygon /\
  forallb (is_leaf 6) (members multi) = true /\
  split_polygons 2 empty_state (Some multi) 6 =
    (Returned, mkState [unit_square; Rect 0 0 2 2] []).
Proof.
  intros multi.
  split; [reflexivity|]. split; [reflexivity|]. split; [reflexivity|].
  exact (multipolygon_of_leaves (GE := engine) multi 6 0 empty_state
           eq_refl eq_refl eq_refl).
Defined.

Lemma oversized_polygon_of_leaves_witness :
  IsEmpty flat_L = false /\
  getGeometryType flat_L = wkbPolygon /\
  oversized flat_L 6 /\
  tidy flat_L = Some (Rect 0 0 2 2) /\
  forallb (is_leaf 6) (quadrants (Rect 0 0 2 2)) = true /\
  split_polygons 2 empty_state (Some flat_L) 6 =
    (Returned,
     mkState [Rect 0 0 1 1; Rect 0 1 1 2; Rect 1 0 2 1; Rect 1 1 2 2] []).
Proof.
  split; [reflexivity|]. split; [reflexivity|]. split; [reflexivity|].
  split; [reflexivity|]. split; [reflexivity|].
  exact (oversized_polygon_of_leaves (GE := engine) flat_L (Rect 0 0 2 2) 6 0
           empty_state eq_refl eq_refl eq_refl eq_refl eq_refl).
Defined.

Lemma pieces_split_to_themselves_witness :
  In (Rect 0 (3 # 2) 3 4) (pieces_of 2 (Some long_L) 6) /\
  split_polygons 1 empty_state (Some (Rect 0 (3 # 2) 3 4)) 6 =
    (Returned, mkState [Rect 0 (3 # 2) 3 4] []).
Proof.
  assert (Hin : In (Rect 0 (3 # 2) 3 4) (pieces_of 2 (Some long_L) 6))
    by (right; left; reflexivity).
  split; [exact Hin|].
  exact (pieces_split_to_themselves (GE := engine)
           (fun p => eq_refl) (fun p => eq_refl) (fun p => eq_refl)
           2 (Some long_L) 6 (Rect 0 (3 # 2) 3 4) Hin 0 empty_state).
Defined.

Lemma options_take_last_occurrence_witness :
  let answers := [("m"%char, "7"%string); ("v"%char, ""%string);
                  ("m"%char, "9"%string)] in
  parse_options atoi_decimal initial_options answers =
    Some (mkOptions None None OUTPUTDRIVER None 9 true) /\
  max_vertices (mkOptions None None OUTPUTDRIVER None 9 true) =
    match last_option "m" answers with
    | Some s => atoi_decimal s
    | None => max_vertices initial_options
    end.
Proof.
  intros answers. split; [reflexivity|].
  exact (proj1 (proj2 (proj2 (proj2 (proj2
           (options_take_last_occurrence atoi_decimal initial_options answers
              (mkOptions None None OUTPUTDRIVER None 9 true) eq_refl)))))).
Defined.

Lemma unknown_option_or_missing_argument_witness :
  main (GE := engine) atoi_decimal pretty 3
    [("m"%char, "9"%string); ("x"%char, ""%string)]
    ["in.shp"; "out.shp"]%string small_world =
    (Exited 1, mkProcess [usage_text] [] []) /\
  main (GE := engine) atoi_decimal pretty 3 [("m"%char, "9"%string)]
    ["in.shp"]%string small_world =
    (Exited 1, mkProcess [usage_text] [] []).
Proof.
  split.
  - apply (unknown_option_or_missing_argument (GE := engine)).
    left. reflexivity.
  - apply (unknown_option_or_missing_argument (GE := engine)).
    right. cbn. lia.
Defined.

Lemma options_commute_witness :
  parse_options atoi_decimal initial_options
    [("m"%char, "9"%string); ("v"%char, ""%string)] =
  parse_options atoi_decimal initial_options
    [("v"%char, ""%string); ("m"%char, "9"%string)].
Proof.
  apply (options_commute atoi_decimal). discriminate.
Defined.

Lemma output_features_carry_input_ids_witness :
  session "6" =
    (Exited 0,
     mkProcess
       [null_warning; ("2 features read, 3 written." ++ newline)%string]
       [(7, Rect 0 0 3 (3 # 2)); (7, Rect 0 (3 # 2) 3 4); (7, Rect 3 0 9 1)]
       [(Some long_L, 6); (None, 6)]) /\
  exists o srcLayer,
    parse_options atoi_decimal initial_options [("m"%char, "6"%string)] =
      Some o /\
    source_layer small_world o "in.shp" = Some srcLayer /\
    p_written (snd (session "6")) =
      features_for 3 (max_vertices o) (id_field_index o srcLayer)
        (layer_features srcLayer).
Proof.
  split; [reflexivity|].
  apply (output_features_carry_input_ids (GE := engine) atoi_decimal pretty 3
           [("m"%char, "6"%string)] ["in.shp"; "out.shp"]%string small_world).
  reflexivity.
Defined.

Lemma final_report_counts_witness :
  exists o srcLayer log,
    parse_options atoi_decimal initial_options [("m"%char, "6"%string)] =
      Some o /\
    source_layer small_world o "in.shp" = Some srcLayer /\
    p_cerr (snd (session "6")) =
      log ++ [summary_line pretty
                (to_int (Z.of_nat (length (layer_features srcLayer))))
                (to_int (Z.of_nat (length (p_written (snd (session "6"))))))] /\
    (Z.of_nat (length (layer_features srcLayer)) < 2 ^ 31 ->
     Z.of_nat (length (p_written (snd (session "6")))) < 2 ^ 31 ->
     p_cerr (snd (session "6")) =
       log ++ [summary_line pretty
                 (Z.of_nat (length (layer_features srcLayer)))
                 (Z.of_nat (length (p_written (snd (session "6")))))]) /\
    (debug o = false -> Forall (fun line => line = null_warning) log).
Proof.
  apply (final_report_counts (GE := engine) atoi_decimal pretty 3
           [("m"%char, "6"%string)] ["in.shp"; "out.shp"]%string small_world).
  reflexivity.
Defined.

Lemma features_written_are_a_prefix_witness :
  let r := write_pieces (Geometry := shape) small_world true 7
             [unit_square; long_L] (2 ^ 31 - 2) (mkProcess [] [] []) in
  r = (None, (- 2 ^ 31,
              mkProcess [] [(7, unit_square); (7, long_L)] [])) /\
  exists k : nat,
    (k <= 2)%nat /\
    p_written (snd (snd r)) = map (pair 7) (take k [unit_square; long_L]) /\
    fst (snd r) = to_int (2 ^ 31 - 2 + Z.of_nat k) /\
    (2 ^ 31 - 2 + Z.of_nat k < 2 ^ 31 ->
     fst (snd r) = 2 ^ 31 - 2 + Z.of_nat k) /\
    p_calls (snd (snd r)) = [] /\
    ((fst r = None /\ k = 2%nat /\ p_cerr (snd (snd r)) = []) \/
     (fst r = Some (Exited 1) /\ (k < 2)%nat /\
      feature_created small_world (0 + k) = false /\
      p_cerr (snd (snd r)) =
        [("Failed to create feature in output." ++ newline)%string]) \/
     (fst r = Some Crashed /\ true = false /\ k = 0%nat /\
      [unit_square; long_L] <> [] /\ p_cerr (snd (snd r)) = [])).
Proof.
  intros r. split; [reflexivity|].
  apply (features_written_are_a_prefix (Geometry := shape) small_world true 7
           [unit_square; long_L] (2 ^ 31 - 2) (mkProcess [] [] [])).
  lia.
Defined.

Lemma one_call_per_feature_witness :
  exists o srcLayer,
    parse_options atoi_decimal initial_options [("m"%char, "6"%string)] =
      Some o /\
    source_layer small_world o "in.shp" = Some srcLayer /\
    p_calls (snd (session "6")) =
      map (fun feature => (GetGeometryRef feature, 6))
          (layer_features srcLayer).
Proof.
  apply (one_call_per_feature (GE := engine) atoi_decimal pretty 3
           [("m"%char, "6"%string)] ["in.shp"; "out.shp"]%string small_world).
  reflexivity.
Defined.

Lemma nothing_happens_before_setup_witness :
  let o := mkOptions None None OUTPUTDRIVER None 6 false in
  p_calls
    (snd (run (GE := engine) pretty 3 small_world o "in.shp" "out.shp"
            (mkProcess [] [] []))) <> [] /\
  exists srcLayer,
    source_layer small_world o "in.shp" = Some srcLayer /\
    (forall name,
        id_field_name o = Some name ->
        0 <= GetFieldIndex srcLayer name /\
        field_is_OFTInteger srcLayer (GetFieldIndex srcLayer name) = true) /\
    fst (create_destination small_world (driver_name o) "out.shp"
           (dest_layer_name o) (id_field_name o) (mkProcess [] [] [])) = true.
Proof.
  intros o.
  assert (Hcalls : p_calls
            (snd (run (GE := engine) pretty 3 small_world o "in.shp" "out.shp"
                    (mkProcess [] [] []))) <> []) by discriminate.
  split; [exact Hcalls|].
  apply (nothing_happens_before_setup (GE := engine) pretty 3 small_world o
           "in.shp" "out.shp" (mkProcess [] [] [])).
  left. exact Hcalls.
Defined.

Lemma pieces_written_under_feature_id_witness :
  p_written (snd (session "6")) =
    [(7, Rect 0 0 3 (3 # 2)); (7, Rect 0 (3 # 2) 3 4); (7, Rect 3 0 9 1)] /\
  exists o srcLayer,
    parse_options atoi_decimal initial_options [("m"%char, "6"%string)] =
      Some o /\
    source_layer small_world o "in.shp" = Some srcLayer /\
    forall id piece,
      In (id, piece) (p_written (snd (session "6"))) ->
      exists feature,
        In feature (layer_features srcLayer) /\
        In piece (pieces_of 3 (GetGeometryRef feature) (max_vertices o)) /\
        let value := GetFID feature in
        id = to_int value /\
        (- 2 ^ 31 <= value < 2 ^ 31 -> id = value).
Proof.
  split; [reflexivity|].
  apply (pieces_written_under_feature_id (GE := engine) atoi_decimal pretty 3
           [("m"%char, "6"%string)] ["in.shp"; "out.shp"]%string small_world).
  reflexivity.
Defined.
End ExtraExamples.
